(** * RF Serial Controller: validator and serial handler

    A shallow embedding of [rf_serial_gui/validator.py],
    [rf_serial_gui/config.py] and [rf_serial_gui/serial_handler.py],
    followed by the properties of the validation rules, of the send
    protocol and of the connection state machine.

    Conventions of the embedding.
    - A Python [str] is a [string]: a sequence of 8-bit characters read as
      the code points U+0000..U+00FF, the domain of the configured
      encoding "iso-8859-1".  The character classes below are the ones
      CPython assigns to these code points.
    - A Python [int] is a [Z]; [bytes] is a [list byte].
    - The handler object and the effects it has on the outside (calls on
      the serial transport, calls of the status callback) are threaded
      through a small state monad; the result of each call into the
      transport is an argument of the operation that makes the call.
    - The status callback observes: it is recorded in the trace, it does
      not raise and does not call back into the handler. [close()] on the
      transport returns. Integers have no bound on their number of
      digits. *)

From Stdlib Require Import String Ascii ZArith NArith List Lia Bool.
From Stdlib Require Import DecimalString DecimalZ DecimalPos.
Import ListNotations.
Local Open Scope string_scope.
Local Open Scope Z_scope.

(* ===================================================================== *)
(** ** Python string primitives used by the two modules *)
(* ===================================================================== *)

Module Py.

Definition ord (c : ascii) : N := N_of_ascii c.

Definition between (lo hi n : N) : bool := ((lo <=? n) && (n <=? hi))%N.

(** [c.isspace()]: TAB..CR, FS..US, SPACE, NEL and NBSP. *)
Definition isspace_char (c : ascii) : bool :=
  between 9 13 (ord c) || between 28 32 (ord c)
  || (ord c =? 133)%N || (ord c =? 160)%N.

(** [c.isdigit()]: the ASCII digits and the superscripts 2, 3 and 1
    (U+00B2, U+00B3, U+00B9), which are digits but not decimals. *)
Definition isdigit_char (c : ascii) : bool :=
  between 48 57 (ord c)
  || (ord c =? 178)%N || (ord c =? 179)%N || (ord c =? 185)%N.

(** The value [int] gives to a character: decimals only. *)
Definition decimal_value (c : ascii) : option Z :=
  if between 48 57 (ord c) then Some (Z.of_N (ord c - 48)) else None.

(** [c.lower()]: A..Z and the accented capitals U+00C0..U+00DE, the
    multiplication sign U+00D7 apart. *)
Definition lower_char (c : ascii) : ascii :=
  if between 65 90 (ord c) || between 192 214 (ord c)
     || between 216 222 (ord c)
  then ascii_of_N (ord c + 32) else c.

(** [s.lower()] *)
Fixpoint lower (s : string) : string :=
  match s with
  | EmptyString => EmptyString
  | String c t => String (lower_char c) (lower t)
  end.

Fixpoint all_chars (p : ascii -> bool) (s : string) : bool :=
  match s with
  | EmptyString => true
  | String c t => p c && all_chars p t
  end.

(** [s.isdigit()]: every character is a digit and there is at least one. *)
Definition isdigit (s : string) : bool :=
  match s with
  | EmptyString => false
  | String _ _ => all_chars isdigit_char s
  end.

(** [s.startswith(p)] *)
Definition startswith (s p : string) : bool := String.prefix p s.

(** [s[1:]] *)
Definition slice_from_1 (s : string) : string :=
  match s with
  | EmptyString => EmptyString
  | String _ t => t
  end.

(** [needle in hay] *)
Fixpoint contains (needle hay : string) : bool :=
  String.prefix needle hay
  || match hay with
     | EmptyString => false
     | String _ t => contains needle t
     end.

Fixpoint lstrip (s : string) : string :=
  match s with
  | EmptyString => EmptyString
  | String c t => if isspace_char c then lstrip t else s
  end.

Fixpoint rstrip (s : string) : string :=
  match s with
  | EmptyString => EmptyString
  | String c t =>
      match rstrip t with
      | EmptyString => if isspace_char c then EmptyString
                       else String c EmptyString
      | t' => String c t'
      end
  end.

(** [s.strip()] *)
Definition strip (s : string) : string := rstrip (lstrip s).

(** Digits of an integer literal: decimals, with single underscores
    allowed between two of them. [after_digit] tells that the previous
    character was a decimal. *)
Fixpoint int_digits (s : string) (acc : Z) (after_digit : bool) : option Z :=
  match s with
  | EmptyString => if after_digit then Some acc else None
  | String c t =>
      match decimal_value c with
      | Some d => int_digits t (10 * acc + d) true
      | None =>
          if Ascii.eqb c "_" && after_digit then int_digits t acc false
          else None
      end
  end.

(** [int(s)]: [None] stands for [ValueError]. Surrounding whitespace is
    dropped, one sign is accepted. *)
Definition int (s : string) : option Z :=
  match strip s with
  | String "-" t => option_map Z.opp (int_digits t 0 false)
  | String "+" t => int_digits t 0 false
  | t => int_digits t 0 false
  end.

(** [str(v)] for an integer [v]. *)
Definition str (v : Z) : string := NilZero.string_of_int (Z.to_int v).

(** [s.encode("iso-8859-1")]: one byte per character, its code point. *)
Definition encode_latin1 (s : string) : list Byte.byte :=
  list_byte_of_string s.

(** [bool(s)] for a string: non-empty. *)
Definition truthy (s : string) : bool :=
  match s with
  | EmptyString => false
  | String _ _ => true
  end.

End Py.

(* ===================================================================== *)
(** ** config.py *)
(* ===================================================================== *)

Module Config.

(** [SERIAL_PORT] depends on [platform.system()]. *)
Definition SERIAL_PORT (windows : bool) : string :=
  if windows then "COM3" else "/dev/ttyUSB2".

Definition BAUD_RATE : Z := 57600.
Definition TIMEOUT : Z := 2.
Definition DATA_BITS : Z := 8.
Definition PARITY : string := "N".
Definition STOP_BITS : Z := 1.
Definition ENCODING : string := "iso-8859-1".
Definition MIN_VALUE : Z := 0.
Definition MAX_VALUE : Z := 100.
Definition DEFAULT_VALUE : Z := 0.

End Config.

(* ===================================================================== *)
(** ** validator.py *)
(* ===================================================================== *)

Module Validator.
Import Config.

(** [Validator.validate]: the pair (is_valid, error_message). *)
Definition validate (input_str : string) : bool * string :=
  if negb (Py.truthy input_str) || String.eqb (Py.strip input_str) ""
  then (true, "")
  else
    let stripped := Py.strip input_str in
    if (if Py.startswith stripped "-"
        then negb (Py.isdigit (Py.slice_from_1 stripped))
        else negb (Py.isdigit stripped))
    then (false, "Invalid: Numbers only")
    else
      match Py.int stripped with
      | None => (false, "Invalid: Numbers only")
      | Some value =>
          if value <? MIN_VALUE
          then (false, "Invalid: Min value is " ++ Py.str MIN_VALUE)
          else if value >? MAX_VALUE
          then (false, "Invalid: Max value is " ++ Py.str MAX_VALUE)
          else (true, "")
      end.

(** [Validator.is_valid_char] *)
Definition is_valid_char (char : string) : bool := Py.isdigit char.

End Validator.

(* ===================================================================== *)
(** ** serial_handler.py *)
(* ===================================================================== *)

Module Handler.
Import Config.

(** [class ConnectionStatus(Enum)] *)
Inductive ConnectionStatus : Type :=
| DISCONNECTED
| CONNECTING
| CONNECTED
| ERROR.

Definition value (s : ConnectionStatus) : string :=
  match s with
  | DISCONNECTED => "Disconnected"
  | CONNECTING => "Connecting..."
  | CONNECTED => "Connected"
  | ERROR => "Error"
  end.

Definition status_eqb (a b : ConnectionStatus) : bool :=
  match a, b with
  | DISCONNECTED, DISCONNECTED | CONNECTING, CONNECTING
  | CONNECTED, CONNECTED | ERROR, ERROR => true
  | _, _ => false
  end.

(** An exception, by the [except] clause that catches it and by the
    text [str(e)] gives. *)
Inductive exn : Type :=
| SerialException (text : string)
| OtherException (text : string).

Definition exn_str (e : exn) : string :=
  match e with
  | SerialException text => text
  | OtherException text => text
  end.

(** What a call into the transport does: it returns or it raises. *)
Inductive outcome (A : Type) : Type :=
| Returns (a : A)
| Raises (e : exn).
Arguments Returns {A} a.
Arguments Raises {A} e.

Definition PARITY_NONE : string := "N".

(** The [serial.Serial] object: the arguments it was built with and its
    [is_open] flag. *)
Record Serial : Type := mkSerial {
  ser_port : string;
  baudrate : Z;
  bytesize : Z;
  parity : string;
  stopbits : Z;
  timeout : Z;
  is_open : bool
}.

(** A registered status callback, by name. *)
Definition callback : Type := nat.

(** The attributes of a [SerialHandler]. *)
Record SerialHandler : Type := mkSerialHandler {
  port : string;
  baud_rate : Z;
  _serial : option Serial;
  _status : ConnectionStatus;
  _error_message : string;
  _status_callback : option callback
}.

(** What the handler does to the outside, in the order it does it. *)
Inductive event : Type :=
| SerialOpen (s : Serial)
| SerialClose
| SerialWrite (data : list Byte.byte)
| Notify (cb : callback) (status : ConnectionStatus) (message : string).

Record World : Type := mkWorld {
  self : SerialHandler;
  trace : list event
}.

(** *** The state monad of the methods *)

Definition M (A : Type) : Type := World -> A * World.

Definition ret {A : Type} (a : A) : M A := fun w => (a, w).

Definition bind {A B : Type} (m : M A) (k : A -> M B) : M B :=
  fun w => let (a, w') := m w in k a w'.

Declare Scope method_scope.
Delimit Scope method_scope with method.
Notation "x <- m ;; k" := (bind m (fun x => k))
  (at level 61, m at next level, right associativity) : method_scope.
Notation "m ;; k" := (bind m (fun _ => k))
  (at level 61, right associativity) : method_scope.
Local Open Scope method_scope.

Definition get_self : M SerialHandler := fun w => (self w, w).

Definition emit (e : event) : M unit :=
  fun w => (tt, mkWorld (self w) (trace w ++ [e])).

Definition set_serial (v : option Serial) : M unit :=
  fun w =>
    let h := self w in
    (tt, mkWorld (mkSerialHandler (port h) (baud_rate h) v (_status h)
                    (_error_message h) (_status_callback h)) (trace w)).

Definition set_status (v : ConnectionStatus) : M unit :=
  fun w =>
    let h := self w in
    (tt, mkWorld (mkSerialHandler (port h) (baud_rate h) (_serial h) v
                    (_error_message h) (_status_callback h)) (trace w)).

Definition set_error_message (v : string) : M unit :=
  fun w =>
    let h := self w in
    (tt, mkWorld (mkSerialHandler (port h) (baud_rate h) (_serial h)
                    (_status h) v (_status_callback h)) (trace w)).

(** *** The methods *)

(** [SerialHandler.__init__] *)
Definition __init__ (port : string) (baud_rate : Z)
    (status_callback : option callback) : SerialHandler :=
  mkSerialHandler port baud_rate None DISCONNECTED "" status_callback.

Definition status (h : SerialHandler) : ConnectionStatus := _status h.

Definition error_message (h : SerialHandler) : string := _error_message h.

(** [SerialHandler._update_status] *)
Definition _update_status (status : ConnectionStatus) (message : string)
    : M unit :=
  set_status status ;;
  set_error_message message ;;
  h <- get_self ;;
  match _status_callback h with
  | Some cb => emit (Notify cb status message)
  | None => ret tt
  end.

(** [SerialHandler._get_error_message] *)
Definition _get_error_message (h : SerialHandler) (exception : exn)
    : string :=
  let error_str := Py.lower (exn_str exception) in
  if Py.contains "no such file" error_str
     || Py.contains "not found" error_str
  then "Serial port " ++ port h ++ " not found"
  else if Py.contains "permission denied" error_str
  then "Permission denied. Check port access rights"
  else if Py.contains "access is denied" error_str
  then "Port is in use by another application"
  else exn_str exception.

(** [SerialHandler.connect]; [opened] is what [serial.Serial(...)] does.
    A [Serial] built with a port comes back open. *)
Definition connect (opened : outcome unit) : M bool :=
  _update_status CONNECTING "" ;;
  h <- get_self ;;
  let s := mkSerial (port h) (baud_rate h) DATA_BITS PARITY_NONE
             STOP_BITS TIMEOUT true in
  emit (SerialOpen s) ;;
  match opened with
  | Returns _ =>
      set_serial (Some s) ;;
      _update_status CONNECTED "" ;;
      ret true
  | Raises (SerialException text) =>
      set_serial None ;;
      h' <- get_self ;;
      let error_msg := _get_error_message h' (SerialException text) in
      _update_status ERROR error_msg ;;
      ret false
  | Raises (OtherException text) =>
      set_serial None ;;
      _update_status ERROR text ;;
      ret false
  end.

(** [SerialHandler.disconnect] *)
Definition disconnect : M unit :=
  h <- get_self ;;
  (match _serial h with
   | Some s => if is_open s then emit SerialClose else ret tt
   | None => ret tt
   end) ;;
  set_serial None.

(** [SerialHandler.retry] *)
Definition retry (opened : outcome unit) : M bool :=
  disconnect ;;
  connect opened.

(** [SerialHandler.is_connected] *)
Definition is_connected (h : SerialHandler) : bool :=
  match _serial h with
  | Some s => is_open s
  | None => false
  end.

(** [SerialHandler.send]; [written] is what [self._serial.write(...)]
    does when it is called. *)
Definition send (value : Z) (written : outcome Z) : M (bool * string) :=
  h <- get_self ;;
  if negb (is_connected h)
  then ret (false, "Error: Not connected to serial port")
  else
    let ascii_string := Py.str value in
    let encoded_data := Py.encode_latin1 ascii_string in
    emit (SerialWrite encoded_data) ;;
    match written with
    | Returns bytes_written =>
        if bytes_written =? Z.of_nat (List.length encoded_data)
        then ret (true, "Sent: " ++ Py.str value)
        else ret (false, "Error: Incomplete transmission")
    | Raises (SerialException text) => ret (false, "Error: " ++ text)
    | Raises (OtherException text) => ret (false, "Error: " ++ text)
    end.

(** *** Sequences of operations *)

Inductive op : Type :=
| Connect (opened : outcome unit)
| Disconnect
| Retry (opened : outcome unit)
| Send (value : Z) (written : outcome Z).

Definition step (o : op) : M unit :=
  match o with
  | Connect opened => connect opened ;; ret tt
  | Disconnect => disconnect
  | Retry opened => retry opened ;; ret tt
  | Send value written => send value written ;; ret tt
  end.

Fixpoint run (ops : list op) : M unit :=
  match ops with
  | [] => ret tt
  | o :: rest => step o ;; run rest
  end.

(** The world a fresh handler starts in. *)
Definition initial (port : string) (baud_rate : Z)
    (status_callback : option callback) : World :=
  mkWorld (__init__ port baud_rate status_callback) [].

(** The world after a sequence of operations on a fresh handler. *)
Definition after (ops : list op) (w : World) : World := snd (run ops w).

End Handler.

(* ===================================================================== *)
(** ** The notions the specification is worded with *)
(* ===================================================================== *)

Module Spec.
Import Handler.




(** Every character of [s] is whitespace ([s] may be empty). *)
Definition whitespace_only (s : string) : bool :=
  Py.all_chars Py.isspace_char s.

(** Two characters that differ by case at most. *)
Definition same_letter (a b : ascii) : bool :=
  Ascii.eqb (Py.lower_char a) (Py.lower_char b).

(** [p] is a prefix of [s], case apart. *)
Fixpoint ci_prefix (p s : string) : bool :=
  match p, s with
  | EmptyString, _ => true
  | String _ _, EmptyString => false
  | String a p', String b s' => same_letter a b && ci_prefix p' s'
  end.

(** [e] contains [needle], case apart. *)
Fixpoint ci_contains (e needle : string) : bool :=
  ci_prefix needle e
  || match e with
     | EmptyString => false
     | String _ t => ci_contains t needle
     end.

(** The classification of a transport error text [e], in the order the
    specification lists the cases. *)
Definition classify (port e : string) : string :=
  if ci_contains e "no such file" || ci_contains e "not found"
  then "Serial port " ++ port ++ " not found"
  else if ci_contains e "permission denied"
  then "Permission denied. Check port access rights"
  else if ci_contains e "access is denied"
  then "Port is in use by another application"
  else e.

(** [disconnect()] followed by [connect()], returning the result of
    [connect()]. *)
Definition disconnect_then_connect (opened : outcome unit)
    (w : World) : bool * World :=
  let w1 := snd (disconnect w) in
  let r := connect opened w1 in
  (fst r, snd r).

(** The transport handle is present and open. *)
Definition handle_open (h : SerialHandler) : Prop :=
  exists s, _serial h = Some s /\ is_open s = true.

(** The calls of the status callback recorded in a trace. *)
Fixpoint notifications (t : list event)
    : list (callback * ConnectionStatus * string) :=
  match t with
  | [] => []
  | Notify cb st msg :: rest => (cb, st, msg) :: notifications rest
  | _ :: rest => notifications rest
  end.

(** The data of the transport writes recorded in a trace. *)
Fixpoint writes (t : list event) : list (list Byte.byte) :=
  match t with
  | [] => []
  | SerialWrite data :: rest => data :: writes rest
  | _ :: rest => writes rest
  end.

(** Scanning a sequence of operations: whether a [disconnect()] of its
    own ([retry()] apart) has come since the last [connect()] or
    [retry()]. *)
Definition scan_disconnect (d : bool) (o : op) : bool :=
  match o with
  | Connect _ | Retry _ => false
  | Disconnect => true
  | Send _ _ => d
  end.

Definition disconnected_since_connect (ops : list op) : bool :=
  fold_left scan_disconnect ops false.

(** Scanning a sequence of operations: what the last open of the transport
    did, if there was one. *)
Definition scan_open (last : option (outcome unit)) (o : op)
    : option (outcome unit) :=
  match o with
  | Connect opened | Retry opened => Some opened
  | Disconnect | Send _ _ => last
  end.

Definition last_open (ops : list op) : option (outcome unit) :=
  fold_left scan_open ops None.

(** The last open did not fail with an empty error text. *)
Definition error_text_given (last : option (outcome unit)) : bool :=
  match last with
  | Some (Raises e) => Py.truthy (exn_str e)
  | _ => true
  end.

(** *** Summaries of the methods, used to state what they do *)

(** The handle [connect] builds. *)
Definition fresh_serial (h : SerialHandler) : Serial :=
  mkSerial (port h) (baud_rate h) Config.DATA_BITS PARITY_NONE Config.STOP_BITS Config.TIMEOUT true.

(** The status, message and handle [connect] leaves. *)
Definition connect_result (h : SerialHandler) (opened : outcome unit)
    : ConnectionStatus * string * option Serial :=
  match opened with
  | Returns _ => (CONNECTED, "", Some (fresh_serial h))
  | Raises (SerialException e) =>
      (ERROR, _get_error_message h (SerialException e), None)
  | Raises (OtherException e) => (ERROR, e, None)
  end.

(** The result [send] returns once the write has been attempted. *)
Definition send_result (value : Z) (written : outcome Z) : bool * string :=
  match written with
  | Returns n =>
      if n =? Z.of_nat (List.length (Py.encode_latin1 (Py.str value)))
      then (true, "Sent: " ++ Py.str value)
      else (false, "Error: Incomplete transmission")
  | Raises e => (false, "Error: " ++ exn_str e)
  end.

End Spec.

(* ===================================================================== *)
(** ** What a trace and a sequence of operations show *)
(* ===================================================================== *)

Module Observe.
Import Handler.

(** The operation opens the transport: [connect()] or [retry()]. *)
Definition opens_transport (o : op) : bool :=
  match o with
  | Connect _ | Retry _ => true
  | Disconnect | Send _ _ => false
  end.

(** The number of [connect()] and [retry()] calls of a sequence. *)
Definition connects (ops : list op) : nat :=
  List.length (filter opens_transport ops).

(** The operation opens the transport and the open succeeds. *)
Definition opens_successfully (o : op) : bool :=
  match o with
  | Connect (Returns _) | Retry (Returns _) => true
  | _ => false
  end.

(** The number of opens of a sequence that succeed. *)
Definition successes (ops : list op) : nat :=
  List.length (filter opens_successfully ops).

(** The [serial.Serial(...)] calls recorded in a trace, by the object they
    build. *)
Fixpoint opens (t : list event) : list Serial :=
  match t with
  | [] => []
  | SerialOpen s :: rest => s :: opens rest
  | _ :: rest => opens rest
  end.

(** The number of [close()] calls recorded in a trace. *)
Fixpoint closes (t : list event) : nat :=
  match t with
  | [] => O
  | SerialClose :: rest => S (closes rest)
  | _ :: rest => closes rest
  end.

(** The events a step adds to the trace, on a handler [h]. *)
Definition step_events (o : op) (h : SerialHandler) : list event :=
  let closing := if is_connected h then [SerialClose] else [] in
  let opening opened :=
    let '(st, msg, _) := Spec.connect_result h opened in
    match _status_callback h with
    | Some cb => [Notify cb CONNECTING ""; SerialOpen (Spec.fresh_serial h);
                  Notify cb st msg]
    | None => [SerialOpen (Spec.fresh_serial h)]
    end in
  match o with
  | Connect opened => opening opened
  | Disconnect => closing
  | Retry opened => (closing ++ opening opened)%list
  | Send v _ =>
      if is_connected h then [SerialWrite (Py.encode_latin1 (Py.str v))]
      else []
  end.

(** The operation is a [send()]. *)
Definition is_send (o : op) : bool :=
  match o with
  | Send _ _ => true
  | _ => false
  end.

End Observe.

(* ===================================================================== *)
(** ** gui.py and main.py: the handlers of the window *)
(* ===================================================================== *)

(** The window is modelled by what its handlers read and write: the text
    variables, the state of the Send button, whether the Retry button is
    shown, and the three flags. Layout and port selection are left out.
    [self.root.update()] redraws the window; no event is pending while it
    runs. *)

Module Gui.
Import Config Handler.

(** The [state] option of a button. *)
Inductive button_state : Type :=
| normal
| disabled.

Record RFSerialGUI : Type := mkGUI {
  _is_sending : bool;
  _input_valid : bool;
  _is_windows : bool;
  status_var : string;
  input_var : string;
  validation_var : string;
  feedback_var : string;
  send_button : button_state;
  retry_button : bool;       (* shown: [grid()], hidden: [grid_remove()] *)
  connect_button : string    (* its text; the button exists on Windows *)
}.

Definition set_is_sending (v : bool) (g : RFSerialGUI) : RFSerialGUI :=
  mkGUI v (_input_valid g) (_is_windows g) (status_var g) (input_var g)
    (validation_var g) (feedback_var g) (send_button g) (retry_button g)
    (connect_button g).

Definition set_input_valid (v : bool) (g : RFSerialGUI) : RFSerialGUI :=
  mkGUI (_is_sending g) v (_is_windows g) (status_var g) (input_var g)
    (validation_var g) (feedback_var g) (send_button g) (retry_button g)
    (connect_button g).

Definition set_status_var (v : string) (g : RFSerialGUI) : RFSerialGUI :=
  mkGUI (_is_sending g) (_input_valid g) (_is_windows g) v (input_var g)
    (validation_var g) (feedback_var g) (send_button g) (retry_button g)
    (connect_button g).

Definition set_input_var (v : string) (g : RFSerialGUI) : RFSerialGUI :=
  mkGUI (_is_sending g) (_input_valid g) (_is_windows g) (status_var g) v
    (validation_var g) (feedback_var g) (send_button g) (retry_button g)
    (connect_button g).

Definition set_validation_var (v : string) (g : RFSerialGUI) : RFSerialGUI :=
  mkGUI (_is_sending g) (_input_valid g) (_is_windows g) (status_var g)
    (input_var g) v (feedback_var g) (send_button g) (retry_button g)
    (connect_button g).

Definition set_feedback_var (v : string) (g : RFSerialGUI) : RFSerialGUI :=
  mkGUI (_is_sending g) (_input_valid g) (_is_windows g) (status_var g)
    (input_var g) (validation_var g) v (send_button g) (retry_button g)
    (connect_button g).

Definition set_send_button (v : button_state) (g : RFSerialGUI)
    : RFSerialGUI :=
  mkGUI (_is_sending g) (_input_valid g) (_is_windows g) (status_var g)
    (input_var g) (validation_var g) (feedback_var g) v (retry_button g)
    (connect_button g).

Definition set_retry_button (v : bool) (g : RFSerialGUI) : RFSerialGUI :=
  mkGUI (_is_sending g) (_input_valid g) (_is_windows g) (status_var g)
    (input_var g) (validation_var g) (feedback_var g) (send_button g) v
    (connect_button g).

Definition set_connect_button (v : string) (g : RFSerialGUI) : RFSerialGUI :=
  mkGUI (_is_sending g) (_input_valid g) (_is_windows g) (status_var g)
    (input_var g) (validation_var g) (feedback_var g) (send_button g)
    (retry_button g) v.

(** [RFSerialGUI._update_send_button_state] *)
Definition _update_send_button_state (h : SerialHandler) (g : RFSerialGUI)
    : RFSerialGUI :=
  let is_connected := status_eqb (status h) CONNECTED in
  if _is_sending g || negb (_input_valid g) || negb is_connected
  then set_send_button disabled g
  else set_send_button normal g.

(** [RFSerialGUI._update_connection_display] *)
Definition _update_connection_display (h : SerialHandler) (g : RFSerialGUI)
    : RFSerialGUI :=
  let error_msg := error_message h in
  let g :=
    match status h with
    | CONNECTED =>
        let g := set_status_var ("Connected (" ++ port h ++ ")") g in
        let g := set_retry_button false g in
        if _is_windows g then set_connect_button "Disconnect" g else g
    | CONNECTING =>
        let g := set_status_var "Connecting..." g in
        set_retry_button false g
    | ERROR =>
        let g := set_status_var
                   (if Py.truthy error_msg then "Error: " ++ error_msg
                    else "Error") g in
        let g := if negb (_is_windows g) then set_retry_button true g else g in
        if _is_windows g then set_connect_button "Connect" g else g
    | DISCONNECTED =>
        let g := set_status_var "Disconnected" g in
        let g := if negb (_is_windows g) then set_retry_button true g else g in
        if _is_windows g then set_connect_button "Connect" g else g
    end in
  _update_send_button_state h g.

(** [RFSerialGUI.on_status_change] *)
Definition on_status_change (h : SerialHandler) (status : ConnectionStatus)
    (message : string) (g : RFSerialGUI) : RFSerialGUI :=
  _update_connection_display h g.

(** [RFSerialGUI._on_input_change] *)
Definition _on_input_change (h : SerialHandler) (g : RFSerialGUI)
    : RFSerialGUI :=
  let input_text := input_var g in
  let '(is_valid, error_msg) := Validator.validate input_text in
  let g := set_input_valid is_valid g in
  let g := set_validation_var error_msg g in
  _update_send_button_state h g.

(** A write of [input_var], by the user or by [set]: the trace registered
    with [trace_add("write", ...)] runs [_on_input_change]. *)
Definition input_var_write (text : string) (h : SerialHandler)
    (g : RFSerialGUI) : RFSerialGUI :=
  _on_input_change h (set_input_var text g).

(** [RFSerialGUI.__init__], on Windows or not. *)
Definition __init__ (windows : bool) (h : SerialHandler) : RFSerialGUI :=
  _update_connection_display h
    (mkGUI false true windows "Disconnected" (Py.str DEFAULT_VALUE) "" ""
       normal false "Connect").

(** The window and the handler it drives. *)
Record App : Type := mkApp {
  gui : RFSerialGUI;
  world : World
}.

(** The status callbacks a method of the handler made while it took the
    world from [before] to [after]: with [on_status_change] registered,
    each one redraws the window from the status and message the handler
    had when it called. *)
Definition run_callbacks (before after : World) (g : RFSerialGUI)
    : RFSerialGUI :=
  fold_left
    (fun g ev =>
       match ev with
       | Notify _ st msg =>
           let h := self after in
           on_status_change
             (mkSerialHandler (port h) (baud_rate h) (_serial h) st msg
                (_status_callback h)) st msg g
       | _ => g
       end)
    (skipn (List.length (trace before)) (trace after)) g.

(** [RFSerialGUI._on_send_click]; [written] is what the write does if
    [send] comes to it. *)
Definition _on_send_click (written : outcome Z) (a : App) : App :=
  let g := gui a in
  let w := world a in
  if _is_sending g || negb (_input_valid g) then a
  else
    let g := set_is_sending true g in
    let g := _update_send_button_state (self w) g in
    let g := set_feedback_var "Sending..." g in
    let '(g, w) :=
      match Py.int (input_var g) with
      | Some value =>
          let '((success, message), w') := send value written w in
          (set_feedback_var message g, w')
      | None => (set_feedback_var "Error: Invalid input" g, w)
      end in
    let g := set_is_sending false g in
    mkApp (_update_send_button_state (self w) g) w.

(** [RFSerialGUI._on_retry_click]; [opened] is what the open does. *)
Definition _on_retry_click (opened : outcome unit) (a : App) : App :=
  let g := gui a in
  let w := world a in
  let g := set_status_var "Connecting..." g in
  let g := set_retry_button false g in
  let '(success, w') := retry opened w in
  let g := run_callbacks w w' g in
  let g := _update_connection_display (self w') g in
  let g := if success then set_feedback_var "Reconnected successfully" g
           else set_feedback_var "Reconnection failed" g in
  mkApp g w'.

(** The name under which [on_status_change] is registered. *)
Definition gui_callback : callback := O.

(** [main], up to [gui.run()]; [opened] is what the open does when the
    platform is not Windows. *)
Definition main (windows : bool) (opened : outcome unit) : App :=
  let w := initial (SERIAL_PORT windows) BAUD_RATE None in
  let g := __init__ windows (self w) in
  let h := self w in
  let w := mkWorld (mkSerialHandler (port h) (baud_rate h) (_serial h)
                      (_status h) (_error_message h) (Some gui_callback))
             (trace w) in
  let '(g, w) :=
    if negb windows
    then let '(_, w') := connect opened w in (run_callbacks w w' g, w')
    else (g, w) in
  mkApp (_update_connection_display (self w) g) w.

(** What the user does to the window. *)
Inductive action : Type :=
| Type_ (text : string)
| ClickSend (written : outcome Z)
| ClickRetry (opened : outcome unit).

Definition act (x : action) (a : App) : App :=
  match x with
  | Type_ text => mkApp (input_var_write text (self (world a)) (gui a)) (world a)
  | ClickSend written => _on_send_click written a
  | ClickRetry opened => _on_retry_click opened a
  end.

Definition session (xs : list action) (a : App) : App :=
  fold_left (fun a x => act x a) xs a.

(** The text [_update_connection_display] puts in [status_var]. *)
Definition status_text (h : SerialHandler) : string :=
  match status h with
  | CONNECTED => "Connected (" ++ port h ++ ")"
  | CONNECTING => "Connecting..."
  | ERROR => if Py.truthy (error_message h)
             then "Error: " ++ error_message h else "Error"
  | DISCONNECTED => "Disconnected"
  end.

(** What holds of the window and its handler between two actions. *)
Definition window_ok (a : App) : Prop :=
  let g := gui a in
  let h := self (world a) in
  _is_sending g = false /\
  _is_windows g = false /\
  _input_valid g = fst (Validator.validate (input_var g)) /\
  validation_var g = snd (Validator.validate (input_var g)) /\
  status_var g = status_text h /\
  retry_button g = negb (status_eqb (status h) CONNECTED) /\
  (send_button g = normal <->
   _input_valid g = true /\ is_connected h = true) /\
  (status h = CONNECTED <-> is_connected h = true).

End Gui.

(* ===================================================================== *)
(** ** Facts about the string primitives *)
(* ===================================================================== *)

Module PyFacts.
Import Py Spec.

(** Case analysis over the 256 characters. *)
Ltac each_char c :=
  destruct c as [[] [] [] [] [] [] [] []];
  vm_compute in *; try discriminate; try reflexivity; auto.





Lemma isdigit_not_space c :
  isdigit_char c = true -> isspace_char c = false.
Proof. intros H. each_char c. Qed.


Lemma minus_not_space : isspace_char "-" = false.
Proof. reflexivity. Qed.

(** *** strip *)

Lemma lstrip_cons c t :
  isspace_char c = false -> lstrip (String c t) = String c t.
Proof. simpl. now intros ->. Qed.

Lemma rstrip_cons c t :
  isspace_char c = false -> rstrip (String c t) = String c (rstrip t).
Proof. simpl. intros ->. now destruct (rstrip t). Qed.

Lemma lstrip_shape s :
  lstrip s = "" \/
  exists c t, lstrip s = String c t /\ isspace_char c = false.
Proof.
  induction s as [|c t IH]; simpl; [now left|].
  destruct (isspace_char c) eqn:E; [exact IH|].
  right. now exists c, t.
Qed.

Lemma rstrip_idempotent s : rstrip (rstrip s) = rstrip s.
Proof.
  induction s as [|c t IH]; simpl; [reflexivity|].
  destruct (rstrip t) as [|c' t'] eqn:E.
  - destruct (isspace_char c) eqn:Ec; simpl; [reflexivity|].
    now rewrite Ec.
  - simpl in IH |- *. rewrite IH. reflexivity.
Qed.

Lemma strip_idempotent s : strip (strip s) = strip s.
Proof.
  unfold strip.
  destruct (lstrip_shape s) as [-> | (c & t & -> & Hc)]; [reflexivity|].
  rewrite (rstrip_cons _ _ Hc), (lstrip_cons _ _ Hc), (rstrip_cons _ _ Hc).
  now rewrite rstrip_idempotent.
Qed.



Lemma strip_whitespace_only s : whitespace_only s = true -> strip s = "".
Proof.
  unfold whitespace_only, strip. intros H.
  assert (lstrip s = "") as ->; [|reflexivity].
  induction s as [|c t IH]; simpl in *; [reflexivity|].
  apply andb_true_iff in H as [-> Ht]. now apply IH.
Qed.


(** *** int *)




(** *** str *)

(** The digits of a decimal numeral. *)
Abbreviation digits := NilEmpty.string_of_uint.








End PyFacts.

(* ===================================================================== *)
(** ** The validator *)
(* ===================================================================== *)

Module ValidatorFacts.
Import Py Spec Config Validator PyFacts.





Lemma validate_whitespace s :
  whitespace_only s = true -> validate s = (true, "").
Proof.
  intros H. unfold validate. rewrite (strip_whitespace_only s H).
  cbn [String.eqb]. now rewrite orb_true_r.
Qed.







End ValidatorFacts.

(* ===================================================================== *)
(** ** The serial handler *)
(* ===================================================================== *)

Module HandlerFacts.
Import Py Spec Config Handler PyFacts.

(** *** What each method does to the handler and to the trace *)

Ltac open_world w :=
  let p := fresh "port" in
  let b := fresh "baud" in
  let ser := fresh "ser" in
  let st := fresh "st" in
  let em := fresh "msg" in
  let cb := fresh "cb" in
  let tr := fresh "tr" in
  destruct w as [[p b ser st em cb] tr].

Lemma connect_eq opened w :
  let h := self w in
  let '(st, msg, ser) := connect_result h opened in
  connect opened w =
    (status_eqb st CONNECTED,
     mkWorld (mkSerialHandler (port h) (baud_rate h) ser st msg
                (_status_callback h))
       (trace w ++
        match _status_callback h with
        | Some cb => [Notify cb CONNECTING ""; SerialOpen (fresh_serial h);
                      Notify cb st msg]
        | None => [SerialOpen (fresh_serial h)]
        end)).
Proof.
  open_world w. destruct opened as [u | [e | e]]; destruct cb;
    cbv [connect_result self connect bind _update_status set_status
         set_error_message get_self emit ret set_serial trace port baud_rate
         _serial _status _error_message _status_callback fresh_serial
         status_eqb];
    rewrite <- ?app_assoc; reflexivity.
Qed.

Lemma disconnect_eq w :
  let h := self w in
  disconnect w =
    (tt,
     mkWorld (mkSerialHandler (port h) (baud_rate h) None (_status h)
                (_error_message h) (_status_callback h))
       (trace w ++ if is_connected h then [SerialClose] else [])).
Proof.
  open_world w. destruct ser as [[? ? ? ? ? ? []] |];
    cbv [self disconnect bind get_self emit ret set_serial trace port
         baud_rate _serial _status _error_message _status_callback
         is_connected is_open];
    rewrite ?app_nil_r; reflexivity.
Qed.

Lemma send_eq value written w :
  send value written w =
    if is_connected (self w)
    then (send_result value written,
          mkWorld (self w)
            (trace w ++ [SerialWrite (encode_latin1 (str value))]))
    else ((false, "Error: Not connected to serial port"), w).
Proof.
  unfold send, bind, get_self. destruct (is_connected (self w)).
  - cbv [negb emit ret send_result].
    destruct written as [n | [e | e]]; [|reflexivity..].
    destruct (n =? _); reflexivity.
  - reflexivity.
Qed.

(** *** Error classification *)

Lemma prefix_lower n s :
  lower n = n -> String.prefix n (lower s) = ci_prefix n s.
Proof.
  revert s. induction n as [|a n IH]; intros s Hn.
  - now destruct s.
  - injection Hn as Ha Hn'. destruct s as [|b s]; [reflexivity|].
    cbn [lower String.prefix ci_prefix]. unfold same_letter.
    rewrite Ha, (IH s Hn').
    destruct (ascii_dec a (lower_char b)) as [-> | Hne].
    + now rewrite Ascii.eqb_refl.
    + apply Ascii.eqb_neq in Hne. now rewrite Hne.
Qed.

Lemma contains_lower n e :
  lower n = n -> contains n (lower e) = ci_contains e n.
Proof.
  intros Hn. induction e as [|c e IH].
  - cbn [lower contains ci_contains].
    now rewrite <- (prefix_lower n "" Hn).
  - cbn [contains ci_contains]. rewrite <- IH.
    now rewrite <- (prefix_lower n (String c e) Hn).
Qed.

Lemma lower_append a b : lower (a ++ b) = lower a ++ lower b.
Proof. induction a as [|c a IH]; cbn; [reflexivity | now rewrite IH]. Qed.

(** [ci_prefix] and [ci_contains] say what their names say. *)
Lemma ci_prefix_spec p s :
  ci_prefix p s = true <->
  exists mid post, s = mid ++ post /\ lower mid = lower p.
Proof.
  revert s. induction p as [|a p IH]; intros s.
  - split; [intros _; now exists "", s | reflexivity].
  - destruct s as [|b s]; cbn [ci_prefix].
    + split; [discriminate|].
      intros (mid & post & Hs & Hl). destruct mid; discriminate.
    + unfold same_letter. rewrite andb_true_iff, Ascii.eqb_eq, IH. split.
      * intros (Hab & mid & post & -> & Hl).
        exists (String b mid), post. split; [reflexivity|].
        cbn [lower]. now rewrite Hab, Hl.
      * intros (mid & post & Hs & Hl). destruct mid as [|b' mid].
        -- discriminate.
        -- injection Hs as -> ->. injection Hl as Hb Hl.
           split; [now symmetry|]. now exists mid, post.
Qed.

Lemma ci_contains_spec e n :
  ci_contains e n = true <->
  exists pre mid post, e = pre ++ mid ++ post /\ lower mid = lower n.
Proof.
  induction e as [|c e IH]; cbn [ci_contains];
    rewrite orb_true_iff, ci_prefix_spec.
  - split.
    + intros [(mid & post & Hs & Hl) | H]; [|discriminate].
      now exists "", mid, post.
    + intros (pre & mid & post & Hs & Hl). left.
      destruct pre; [|discriminate]. now exists mid, post.
  - rewrite IH. split.
    + intros [(mid & post & Hs & Hl) | (pre & mid & post & Hs & Hl)].
      * now exists "", mid, post.
      * exists (String c pre), mid, post. split; [|exact Hl].
        cbn. now rewrite Hs.
    + intros (pre & mid & post & Hs & Hl). destruct pre as [|c' pre].
      * left. now exists mid, post.
      * right. injection Hs as -> ->. now exists pre, mid, post.
Qed.

Lemma get_error_message_classify h e :
  _get_error_message h (SerialException e) = classify (port h) e.
Proof.
  unfold _get_error_message, classify, exn_str.
  now rewrite !contains_lower.
Qed.

(** C5. The message of a failed open is found from the text [e] of the
    transport error by substring matching, case apart, in this order:
    "no such file" or "not found" give "Serial port {port} not found",
    "permission denied" gives "Permission denied. Check port access
    rights", "access is denied" gives "Port is in use by another
    application", anything else gives [e] itself; [connect] records that
    message with status Error and returns failure. *)
Theorem error_classification (w : World) (e : string) :
  let r := connect (Raises (SerialException e)) w in
  _get_error_message (self w) (SerialException e)
    = classify (port (self w)) e /\
  fst r = false /\
  status (self (snd r)) = ERROR /\
  error_message (self (snd r)) = classify (port (self w)) e.
Proof.
  pose proof (connect_eq (Raises (SerialException e)) w) as H.
  cbv zeta in H. cbn [connect_result] in H. cbv zeta. rewrite H.
  rewrite get_error_message_classify. now repeat split.
Qed.

(** *** connect and retry *)

Lemma notifications_app t1 t2 :
  notifications (t1 ++ t2) = (notifications t1 ++ notifications t2)%list.
Proof.
  induction t1 as [|ev t1 IH]; [reflexivity|].
  destruct ev; cbn [notifications app]; now rewrite ?IH.
Qed.

Lemma writes_app t1 t2 : writes (t1 ++ t2) = (writes t1 ++ writes t2)%list.
Proof.
  induction t1 as [|ev t1 IH]; [reflexivity|].
  destruct ev; cbn [writes app]; now rewrite ?IH.
Qed.

(** C4. With a status callback registered, [connect()] calls it exactly
    twice: first with Connecting, before the transport is opened, then
    with Connected when the open succeeds, and [connect] returns success,
    or with Error and the message of the failure when it fails, and
    [connect] returns failure. The message of a transport error is the
    classified one; an exception of another kind is reported by its own
    text. *)
Theorem connect_notifies_twice (w : World) (cb : callback)
    (opened : outcome unit) :
  _status_callback (self w) = Some cb ->
  let r := connect opened w in
  let st := status (self (snd r)) in
  let msg := error_message (self (snd r)) in
  trace (snd r) =
    (trace w ++ [Notify cb CONNECTING ""; SerialOpen (fresh_serial (self w));
                 Notify cb st msg])%list /\
  notifications (trace (snd r)) =
    (notifications (trace w) ++ [(cb, CONNECTING, ""); (cb, st, msg)])%list /\
  match opened with
  | Returns _ => st = CONNECTED /\ msg = "" /\ fst r = true
  | Raises (SerialException e) =>
      st = ERROR /\ msg = classify (port (self w)) e /\ fst r = false
  | Raises (OtherException e) => st = ERROR /\ msg = e /\ fst r = false
  end.
Proof.
  intros Hcb. pose proof (connect_eq opened w) as H. cbv zeta in H |- *.
  rewrite Hcb in H.
  destruct opened as [u | [e | e]]; cbn [connect_result] in H; rewrite H;
    cbn [fst snd self trace status error_message _status _error_message];
    rewrite ?notifications_app, ?get_error_message_classify;
    now repeat split.
Qed.

Lemma connect_notifies_twice_witness :
  let w := initial "/dev/ttyUSB2" 57600 (Some 7%nat) in
  notifications (trace (snd (connect (Raises (SerialException
    "could not open port: Permission denied")) w))) =
  [(7%nat, CONNECTING, "");
   (7%nat, ERROR, "Permission denied. Check port access rights")].
Proof.
  cbv zeta.
  pose proof (connect_notifies_twice
                (initial "/dev/ttyUSB2" 57600 (Some 7%nat)) 7%nat
                (Raises (SerialException
                   "could not open port: Permission denied"))
                eq_refl) as H.
  cbv zeta in H. destruct H as (_ & Hn & Hst & Hmsg & _).
  rewrite Hn, Hst, Hmsg. reflexivity.
Defined.

Lemma retry_eq opened w :
  retry opened w = connect opened (snd (disconnect w)).
Proof. unfold retry, bind. now destruct (disconnect w). Qed.

(** C8. [retry()] is [disconnect()] followed by [connect()] on the same
    handler and returns what [connect()] returns; after a failed
    [connect()], which leaves status Error, a [retry()] whose open succeeds
    leaves status Connected and returns success. *)
Theorem retry_is_disconnect_then_connect (w : World)
    (opened : outcome unit) (e : exn) :
  retry opened w = disconnect_then_connect opened w /\
  let w1 := snd (connect (Raises e) w) in
  let r := retry (Returns tt) w1 in
  fst (connect (Raises e) w) = false /\
  status (self w1) = ERROR /\
  fst r = true /\
  status (self (snd r)) = CONNECTED /\
  is_connected (self (snd r)) = true.
Proof.
  split.
  - rewrite retry_eq. unfold disconnect_then_connect.
    now destruct (connect opened (snd (disconnect w))).
  - cbv zeta. rewrite retry_eq.
    pose proof (connect_eq (Returns tt)
                  (snd (disconnect (snd (connect (Raises e) w))))) as H2.
    cbv zeta in H2. cbn [connect_result] in H2. rewrite H2. clear H2.
    pose proof (connect_eq (Raises e) w) as H1. cbv zeta in H1.
    destruct e as [e | e]; cbn [connect_result] in H1; rewrite H1;
      now repeat split.
Qed.

(** *** send *)






(** C3. On a handler that is not connected, [send(v)] returns failure
    with the message "Error: Not connected to serial port" and calls
    nothing on the transport; and whatever happens to the write, [send]
    leaves status, error message and transport handle as they were, so a
    failed or incomplete write never takes the status away from
    Connected. *)
Theorem send_leaves_handler_unchanged (w : World) (v : Z)
    (written : outcome Z) :
  let r := send v written w in
  self (snd r) = self w /\
  status (self (snd r)) = status (self w) /\
  error_message (self (snd r)) = error_message (self w) /\
  _serial (self (snd r)) = _serial (self w) /\
  (status (self w) = CONNECTED -> status (self (snd r)) = CONNECTED) /\
  (is_connected (self w) = false ->
   r = ((false, "Error: Not connected to serial port"), w)).
Proof.
  cbv zeta. rewrite send_eq.
  destruct (is_connected (self w)); cbn [snd self]; repeat split; auto.
  discriminate.
Qed.

Lemma send_leaves_handler_unchanged_witness :
  let w := initial "/dev/ttyUSB2" 57600 None in
  send 50 (Returns 2) w = ((false, "Error: Not connected to serial port"), w)
  /\
  let w' := snd (connect (Returns tt) w) in
  status (self (snd (send 50 (Raises (SerialException "Write timeout")) w')))
  = CONNECTED.
Proof.
  cbv zeta. split.
  - apply (proj2 (proj2 (proj2 (proj2 (proj2
      (send_leaves_handler_unchanged
         (initial "/dev/ttyUSB2" 57600 None) 50 (Returns 2))))))).
    reflexivity.
  - apply (proj1 (proj2 (proj2 (proj2 (proj2
      (send_leaves_handler_unchanged
         (snd (connect (Returns tt) (initial "/dev/ttyUSB2" 57600 None)))
         50 (Raises (SerialException "Write timeout")))))))).
    reflexivity.
Defined.



(** *** Sequences of operations *)

Lemma after_nil w : after [] w = w.
Proof. reflexivity. Qed.

Lemma after_cons o ops w : after (o :: ops) w = after ops (snd (step o w)).
Proof. unfold after. cbn [run]. unfold bind. now destruct (step o w). Qed.

(** The handler a step leaves. *)
Lemma step_self o w :
  let h := self w in
  self (snd (step o w)) =
    match o with
    | Connect opened | Retry opened =>
        let '(st, msg, ser) := connect_result h opened in
        mkSerialHandler (port h) (baud_rate h) ser st msg (_status_callback h)
    | Disconnect =>
        mkSerialHandler (port h) (baud_rate h) None (_status h)
          (_error_message h) (_status_callback h)
    | Send _ _ => h
    end.
Proof.
  cbv zeta. destruct o as [opened | | opened | v written]; unfold step, bind.
  - pose proof (connect_eq opened w) as H. cbv zeta in H.
    destruct opened as [u | [e | e]]; cbn [connect_result] in H |- *;
      now rewrite H.
  - now rewrite disconnect_eq.
  - rewrite retry_eq.
    pose proof (connect_eq opened (snd (disconnect w))) as H. cbv zeta in H.
    rewrite disconnect_eq in H.
    destruct opened as [u | [e | e]]; cbn [connect_result] in H |- *;
      rewrite disconnect_eq, H; reflexivity.
  - rewrite send_eq. now destruct (is_connected (self w)).
Qed.

Ltac step_cases o w :=
  pose proof (step_self o w) as Hstep; cbv zeta in Hstep;
  destruct o as [[u | [e | e]] | | [u | [e | e]] | v written];
  cbn [connect_result] in Hstep; rewrite Hstep; clear Hstep;
  cbn [scan_disconnect scan_open error_text_given is_connected _serial
       _status _error_message fresh_serial is_open].

Lemma is_connected_handle_open h : is_connected h = true <-> handle_open h.
Proof.
  unfold is_connected, handle_open. destruct (_serial h) as [s|].
  - split; [intros H; now exists s | intros (s' & [= <-] & H); exact H].
  - split; [discriminate | intros (s' & [=] & _)].
Qed.

(** An open handle goes with status Connected, after every step. *)
Lemma open_is_connected_step o w :
  (is_connected (self w) = true -> _status (self w) = CONNECTED) ->
  is_connected (self (snd (step o w))) = true ->
  _status (self (snd (step o w))) = CONNECTED.
Proof. intros Hinv. step_cases o w; auto; discriminate. Qed.

Lemma open_is_connected ops w :
  (is_connected (self w) = true -> _status (self w) = CONNECTED) ->
  is_connected (self (after ops w)) = true ->
  _status (self (after ops w)) = CONNECTED.
Proof.
  revert w. induction ops as [|o ops IH]; intros w Hinv; [exact Hinv|].
  rewrite after_cons. apply IH. now apply open_is_connected_step.
Qed.

(** Status Connected goes with an open handle, until a [disconnect()]. *)
Lemma connected_is_open ops w d :
  (d = false ->
   _status (self w) = CONNECTED -> is_connected (self w) = true) ->
  fold_left scan_disconnect ops d = false ->
  _status (self (after ops w)) = CONNECTED ->
  is_connected (self (after ops w)) = true.
Proof.
  revert w d. induction ops as [|o ops IH]; intros w d Hinv Hd.
  - now apply Hinv.
  - rewrite after_cons. cbn [fold_left] in Hd.
    apply (IH _ (scan_disconnect d o)); [|exact Hd]. clear IH Hd.
    step_cases o w; auto; discriminate.
Qed.

(** C1 as stated fails: after a successful [connect()] and a
    [disconnect()] the status is still Connected while the handle is gone
    and [is_connected()] is false. *)
Lemma status_connected_after_disconnect :
  let w := after [Connect (Returns tt); Disconnect]
             (initial "/dev/ttyUSB2" 57600 None) in
  status (self w) = CONNECTED /\
  _serial (self w) = None /\
  is_connected (self w) = false /\
  ~ handle_open (self w).
Proof.
  cbv zeta. repeat split.
  intros (s & Hs & _). discriminate Hs.
Qed.

(** C1, amended. After every sequence of operations on a fresh handler,
    [is_connected()] is true exactly when the transport handle is present
    and open, and then the status is Connected; the status is Connected
    only with the handle present and open as long as no [disconnect()] of
    its own has come since the last [connect()] or [retry()]. *)
Theorem connected_invariant (ops : list op) (port : string) (baud : Z)
    (cb : option callback) :
  let h := self (after ops (initial port baud cb)) in
  (is_connected h = true <-> handle_open h) /\
  (handle_open h -> status h = CONNECTED) /\
  (disconnected_since_connect ops = false ->
   (status h = CONNECTED <-> handle_open h)).
Proof.
  cbv zeta. split; [apply is_connected_handle_open|].
  assert (Hopen : handle_open (self (after ops (initial port baud cb))) ->
                  status (self (after ops (initial port baud cb)))
                  = CONNECTED).
  { intros H. apply is_connected_handle_open in H. revert H.
    apply open_is_connected. discriminate. }
  split; [exact Hopen|].
  intros Hd. split; [|exact Hopen].
  intros H. apply is_connected_handle_open. revert H.
  apply (connected_is_open ops _ false); [discriminate | exact Hd].
Qed.

Lemma connected_invariant_witness :
  let h := self (after [Connect (Raises (SerialException "Port not found"));
                        Disconnect; Retry (Returns tt); Send 50 (Returns 2)]
                   (initial "/dev/ttyUSB2" 57600 None)) in
  status h = CONNECTED /\ is_connected h = true.
Proof.
  cbv zeta.
  pose proof (connected_invariant
                [Connect (Raises (SerialException "Port not found"));
                 Disconnect; Retry (Returns tt); Send 50 (Returns 2)]
                "/dev/ttyUSB2" 57600 None) as H.
  cbv zeta in H. destruct H as (H1 & H2 & H3).
  assert (Hopen : handle_open
            (self (after [Connect (Raises (SerialException "Port not found"));
                          Disconnect; Retry (Returns tt); Send 50 (Returns 2)]
                     (initial "/dev/ttyUSB2" 57600 None)))).
  { apply (proj1 (H3 eq_refl)). reflexivity. }
  split; [exact (H2 Hopen) | exact (proj2 H1 Hopen)].
Defined.

(** *** The error message *)

Lemma truthy_nonempty s : truthy s = true <-> s <> "".
Proof. destruct s; split; try easy. Qed.

Lemma classify_nonempty port e : e <> "" -> classify port e <> "".
Proof.
  intros He. unfold classify.
  destruct (_ || _); [discriminate|].
  destruct (ci_contains e "permission denied"); [discriminate|].
  destruct (ci_contains e "access is denied"); [discriminate | exact He].
Qed.

(** A message goes with status Error, after every step. *)
Lemma message_is_error ops w :
  (_error_message (self w) <> "" -> _status (self w) = ERROR) ->
  _error_message (self (after ops w)) <> "" ->
  _status (self (after ops w)) = ERROR.
Proof.
  revert w. induction ops as [|o ops IH]; intros w Hinv; [exact Hinv|].
  rewrite after_cons. apply IH. clear IH.
  step_cases o w; auto; intros H; now elim H.
Qed.

(** Status Error goes with a message, when the failed open gave one. *)
Lemma error_has_message ops w last :
  (error_text_given last = true ->
   _status (self w) = ERROR -> _error_message (self w) <> "") ->
  error_text_given (fold_left scan_open ops last) = true ->
  _status (self (after ops w)) = ERROR ->
  _error_message (self (after ops w)) <> "".
Proof.
  revert w last. induction ops as [|o ops IH]; intros w last Hinv Hl.
  - now apply Hinv.
  - rewrite after_cons. cbn [fold_left] in Hl.
    apply (IH _ (scan_open last o)); [|exact Hl]. clear IH Hl.
    step_cases o w; auto; try discriminate.
    all: cbn [exn_str]; intros He _;
      apply truthy_nonempty in He;
      rewrite ?get_error_message_classify;
      auto using classify_nonempty.
Qed.

(** C9 as stated fails: a transport error without text leaves status
    Error with an empty message. *)
Lemma error_with_empty_message :
  let w := after [Connect (Raises (SerialException ""))]
             (initial "/dev/ttyUSB2" 57600 None) in
  status (self w) = ERROR /\ error_message (self w) = "".
Proof. cbv zeta. split; reflexivity. Qed.

(** C9, amended. After every sequence of operations on a fresh handler, a
    non-empty error message goes with status Error; and status Error goes
    with a non-empty error message when the error that the last open of
    the transport met has a non-empty text. *)
Theorem error_message_invariant (ops : list op) (port : string) (baud : Z)
    (cb : option callback) :
  let h := self (after ops (initial port baud cb)) in
  (error_message h <> "" -> status h = ERROR) /\
  (error_text_given (last_open ops) = true ->
   (error_message h <> "" <-> status h = ERROR)).
Proof.
  cbv zeta.
  assert (Hmsg : error_message (self (after ops (initial port baud cb)))
                 <> "" ->
                 status (self (after ops (initial port baud cb))) = ERROR).
  { apply message_is_error. intros H. now elim H. }
  split; [exact Hmsg|]. intros Hl. split; [exact Hmsg|].
  apply (error_has_message ops _ None); [discriminate | exact Hl].
Qed.

Lemma error_message_invariant_witness :
  let h := self (after [Connect (Raises (SerialException "Access is denied"));
                        Send 3 (Returns 1)]
                   (initial "COM3" 57600 None)) in
  error_message h <> "" /\ status h = ERROR.
Proof.
  cbv zeta.
  pose proof (error_message_invariant
                [Connect (Raises (SerialException "Access is denied"));
                 Send 3 (Returns 1)] "COM3" 57600 None) as H.
  cbv zeta in H. destruct H as (_ & H).
  split; [apply (proj2 (H eq_refl)); reflexivity | reflexivity].
Defined.

End HandlerFacts.

(* ===================================================================== *)
(** ** The unit tests of the repository, run on the embedding *)
(* ===================================================================== *)

Module UnitTests.
Import Py Spec Config Validator Handler.

Example test_validate_values :
  validate "0" = (true, "") /\ validate "100" = (true, "") /\
  validate "50" = (true, "") /\ validate "" = (true, "") /\
  validate "   " = (true, "") /\ validate "007" = (true, "") /\
  validate "  50  " = (true, "").
Proof. repeat split. Qed.

Example test_validate_out_of_range :
  validate "-1" = (false, "Invalid: Min value is 0") /\
  validate "101" = (false, "Invalid: Max value is 100") /\
  validate "999" = (false, "Invalid: Max value is 100").
Proof. repeat split. Qed.

Example test_validate_non_numeric :
  validate "abc" = (false, "Invalid: Numbers only") /\
  validate "12a" = (false, "Invalid: Numbers only") /\
  validate "50!" = (false, "Invalid: Numbers only") /\
  validate "50.5" = (false, "Invalid: Numbers only") /\
  validate "-" = (false, "Invalid: Numbers only") /\
  validate (String (ascii_of_N 178) "") = (false, "Invalid: Numbers only").
Proof. repeat split. Qed.

Example test_is_valid_char :
  is_valid_char "0" = true /\ is_valid_char "9" = true /\
  is_valid_char "a" = false /\ is_valid_char "-" = false /\
  is_valid_char "." = false.
Proof. repeat split. Qed.

Example test_initial_state :
  let h := __init__ (SERIAL_PORT false) BAUD_RATE None in
  status h = DISCONNECTED /\ is_connected h = false.
Proof. split; reflexivity. Qed.

Example test_connect_failure_port_not_found :
  let r := connect (Raises (SerialException
                      "could not open port: No such file"))
             (initial "/dev/ttyUSB2" BAUD_RATE None) in
  fst r = false /\ status (self (snd r)) = ERROR /\
  error_message (self (snd r)) = "Serial port /dev/ttyUSB2 not found".
Proof. repeat split. Qed.

Example test_retry_after_failure :
  let w1 := snd (connect (Raises (SerialException "Port not found"))
                   (initial "/dev/ttyUSB2" BAUD_RATE None)) in
  status (self w1) = ERROR /\
  fst (retry (Returns tt) w1) = true /\
  status (self (snd (retry (Returns tt) w1))) = CONNECTED.
Proof. repeat split. Qed.

Example test_disconnect :
  let w := after [Connect (Returns tt); Disconnect]
             (initial "/dev/ttyUSB2" BAUD_RATE None) in
  is_connected (self w) = false /\
  trace w = [SerialOpen (fresh_serial (self w)); SerialClose].
Proof. split; reflexivity. Qed.

Example test_send :
  let w := snd (connect (Returns tt)
                  (initial "/dev/ttyUSB2" BAUD_RATE None)) in
  fst (send 50 (Returns 2) w) = (true, "Sent: 50") /\
  fst (send 100 (Returns 3) w) = (true, "Sent: 100") /\
  fst (send 0 (Returns 1) w) = (true, "Sent: 0") /\
  fst (send 50 (Returns 1) w) = (false, "Error: Incomplete transmission") /\
  fst (send 50 (Raises (SerialException "Write timeout")) w)
  = (false, "Error: Write timeout") /\
  writes (trace (snd (send 100 (Returns 3) w)))
  = [[Byte.x31; Byte.x30; Byte.x30]].
Proof. repeat split. Qed.

End UnitTests.

(* ===================================================================== *)
(** ** More on the validator *)
(* ===================================================================== *)

Module ValidatorMore.
Import Py Spec Config Validator PyFacts ValidatorFacts.

Lemma int_strip s : int (strip s) = int s.
Proof. unfold int. now rewrite strip_idempotent. Qed.

Lemma lstrip_whitespace a s :
  whitespace_only a = true -> lstrip (a ++ s) = lstrip s.
Proof.
  unfold whitespace_only. induction a as [|c a IH]; intros H; [reflexivity|].
  cbn [all_chars] in H. apply andb_true_iff in H as [Hc Ha].
  cbn [append lstrip]. rewrite Hc. now apply IH.
Qed.

Lemma rstrip_whitespace s b :
  whitespace_only b = true -> rstrip (s ++ b) = rstrip s.
Proof.
  intros Hb. induction s as [|c s IH].
  - cbn [append]. unfold whitespace_only in Hb.
    induction b as [|c b IH]; [reflexivity|].
    cbn [all_chars] in Hb. apply andb_true_iff in Hb as [Hc Hb].
    cbn [rstrip]. now rewrite (IH Hb), Hc.
  - cbn [append rstrip]. now rewrite IH.
Qed.

Lemma strip_padding a s b :
  whitespace_only a = true -> whitespace_only b = true ->
  strip (a ++ s ++ b) = strip s.
Proof.
  intros Ha Hb. unfold strip. rewrite (lstrip_whitespace a _ Ha).
  induction s as [|c s IH].
  - cbn [append]. pose proof (strip_whitespace_only b Hb) as H.
    unfold strip in H. now rewrite H.
  - cbn [append lstrip]. destruct (isspace_char c); [exact IH|].
    exact (rstrip_whitespace (String c s) b Hb).
Qed.

(** [validate] looks at its input through [strip] only. *)
Lemma validate_via_strip s t : strip s = strip t -> validate s = validate t.
Proof.
  intros H. unfold validate. rewrite <- H.
  destruct (strip s) as [|c r] eqn:Es.
  - cbn [String.eqb]. now rewrite !orb_true_r.
  - assert (Hs : truthy s = true) by (destruct s; [discriminate | reflexivity]).
    assert (Ht : truthy t = true).
    { destruct t; [|reflexivity]. cbn in H. discriminate H. }
    now rewrite Hs, Ht.
Qed.

(** X1. Whitespace around the input does not count: [validate] gives the
    same result with and without it. *)
Theorem validate_ignores_padding (a s b : string) :
  whitespace_only a = true -> whitespace_only b = true ->
  validate (a ++ s ++ b) = validate s.
Proof.
  intros Ha Hb. apply validate_via_strip. now apply strip_padding.
Qed.

Lemma validate_ignores_padding_witness :
  validate "  101 " = validate "101".
Proof.
  apply (validate_ignores_padding "  " "101" " "); reflexivity.
Defined.

(** X2. [validate] has four results, and the input is valid exactly when
    the message is empty. *)
Theorem validate_results (s : string) :
  let r := validate s in
  (r = (true, "") \/ r = (false, "Invalid: Numbers only") \/
   r = (false, "Invalid: Min value is 0") \/
   r = (false, "Invalid: Max value is 100")) /\
  (fst r = true <-> snd r = "").
Proof.
  cbv zeta. unfold validate.
  destruct (negb (truthy s) || String.eqb (strip s) "");
    [split; [now left | now split]|].
  destruct (if startswith (strip s) "-" then _ else _);
    [split; [now right; left | split; discriminate]|].
  destruct (int (strip s)) as [n|];
    [|split; [now right; left | split; discriminate]].
  destruct (n <? MIN_VALUE);
    [split; [now right; right; left | split; discriminate]|].
  destruct (n >? MAX_VALUE);
    [split; [now right; right; right | split; discriminate]|].
  split; [now left | now split].
Qed.

Lemma validate_results_witness : snd (validate "50") = "".
Proof. apply (proj1 (proj2 (validate_results "50"))). reflexivity. Defined.

Lemma validate_accepted s :
  fst (validate s) = true ->
  strip s = "" \/ exists n, int s = Some n /\ 0 <= n <= 100.
Proof.
  unfold validate.
  destruct (negb (truthy s) || String.eqb (strip s) "") eqn:E.
  - intros _. left. apply orb_true_iff in E as [E | E].
    + destruct s; [reflexivity | discriminate].
    + now apply String.eqb_eq in E.
  - destruct (if startswith (strip s) "-" then _ else _); [discriminate|].
    rewrite int_strip. destruct (int s) as [n|]; [|discriminate].
    unfold MIN_VALUE, MAX_VALUE.
    destruct (Z.ltb_spec n 0); [discriminate|].
    destruct (Z.gtb_spec n 100); [discriminate|].
    intros _. right. exists n. split; [reflexivity | lia].
Qed.









End ValidatorMore.

(* ===================================================================== *)
(** ** More on the serial handler *)
(* ===================================================================== *)

Module HandlerMore.
Import Py Spec Observe Config Handler PyFacts HandlerFacts.

Lemma opens_app t1 t2 : opens (t1 ++ t2) = (opens t1 ++ opens t2)%list.
Proof.
  induction t1 as [|ev t1 IH]; [reflexivity|].
  destruct ev; cbn [opens app]; now rewrite ?IH.
Qed.

Lemma closes_app t1 t2 : closes (t1 ++ t2) = (closes t1 + closes t2)%nat.
Proof.
  induction t1 as [|ev t1 IH]; [reflexivity|].
  destruct ev; cbn [closes app]; now rewrite ?IH.
Qed.

(** The world [connect] leaves, case by case. *)
Lemma connect_world opened w :
  let h := self w in
  snd (connect opened w) =
    let '(st, msg, ser) := connect_result h opened in
    mkWorld (mkSerialHandler (port h) (baud_rate h) ser st msg
               (_status_callback h))
      (trace w ++
       match _status_callback h with
       | Some cb => [Notify cb CONNECTING ""; SerialOpen (fresh_serial h);
                     Notify cb st msg]
       | None => [SerialOpen (fresh_serial h)]
       end).
Proof.
  pose proof (connect_eq opened w) as H. cbv zeta in H |- *.
  destruct (connect_result (self w) opened) as [[st msg] ser].
  now rewrite H.
Qed.

(** The world and the result [retry] leaves: those of [connect], after
    the [close()] of an open handle. *)
Lemma retry_world opened w :
  let h := self w in
  fst (retry opened w) = fst (connect opened w) /\
  self (snd (retry opened w)) = self (snd (connect opened w)) /\
  exists added,
    trace (snd (connect opened w)) = (trace w ++ added)%list /\
    trace (snd (retry opened w)) =
      (trace w ++ (if is_connected h then [SerialClose] else []) ++ added)%list.
Proof.
  cbv zeta. rewrite retry_eq.
  pose proof (connect_eq opened w) as H1.
  pose proof (connect_eq opened (snd (disconnect w))) as H2.
  cbv zeta in H1, H2. rewrite disconnect_eq in H2 |- *.
  cbn [snd self trace port baud_rate _status_callback] in H2 |- *.
  destruct opened as [u | [e | e]]; cbn [connect_result] in H1, H2;
    rewrite H1, H2; cbn [fst snd self trace];
    (split; [reflexivity | split; [reflexivity|]]);
    eexists; (split; [reflexivity|]); now rewrite <- app_assoc.
Qed.

(** X6. [disconnect()] leaves no handle, so [is_connected()] is false; it
    calls [close()] once when the handle was open and not at all
    otherwise; it changes neither status nor error message and notifies
    nobody; a second [disconnect()] changes nothing. *)
Theorem disconnect_releases_handle (w : World) :
  let w' := snd (disconnect w) in
  _serial (self w') = None /\
  is_connected (self w') = false /\
  status (self w') = status (self w) /\
  error_message (self w') = error_message (self w) /\
  notifications (trace w') = notifications (trace w) /\
  closes (trace w') =
    (closes (trace w) + if is_connected (self w) then 1 else 0)%nat /\
  snd (disconnect w') = w'.
Proof.
  cbv zeta. rewrite !disconnect_eq. cbn [snd self trace _serial is_connected
    status error_message _status _error_message port baud_rate
    _status_callback].
  rewrite notifications_app, closes_app, !app_nil_r.
  repeat split.
  - destruct (is_connected (self w)); cbn; now rewrite app_nil_r.
  - now destruct (is_connected (self w)).
Qed.

(** X7. [connect()] never calls [close()]: on a handler that holds an open
    handle it replaces the handle and leaves the old one open. [retry()]
    closes an open handle first, exactly once. Either way the transport is
    opened once. *)
Theorem connect_does_not_close (w : World) (opened : outcome unit) :
  closes (trace (snd (connect opened w))) = closes (trace w) /\
  closes (trace (snd (retry opened w))) =
    (closes (trace w) + if is_connected (self w) then 1 else 0)%nat /\
  opens (trace (snd (connect opened w))) =
    (opens (trace w) ++ [fresh_serial (self w)])%list /\
  opens (trace (snd (retry opened w))) =
    (opens (trace w) ++ [fresh_serial (self w)])%list.
Proof.
  destruct (retry_world opened w) as (_ & _ & added & Hc & Hr).
  assert (Hadded : closes added = O /\ opens added = [fresh_serial (self w)]).
  { pose proof (connect_world opened w) as H. cbv zeta in H.
    rewrite H in Hc. clear H.
    destruct (connect_result (self w) opened) as [[st msg] ser].
    cbn [trace] in Hc. apply app_inv_head in Hc. subst added.
    now destruct (_status_callback (self w)). }
  destruct Hadded as (Hcl & Hop).
  rewrite Hc, Hr, !closes_app, !opens_app, Hcl, Hop.
  destruct (is_connected (self w)); cbn [closes opens app];
    repeat split; lia.
Qed.

(** X8. [connect()] returns [True] exactly when it leaves status Connected,
    which is exactly when it leaves the handler connected; otherwise it
    leaves status Error and no handle. It never leaves status Connecting
    or Disconnected. The same holds of [retry()]. *)
Theorem connect_result_matches_state (w : World) (opened : outcome unit) :
  let r := connect opened w in
  let r' := retry opened w in
  (fst r = true <-> status (self (snd r)) = CONNECTED) /\
  (fst r = true <-> is_connected (self (snd r)) = true) /\
  (fst r = false <->
   status (self (snd r)) = ERROR /\ _serial (self (snd r)) = None) /\
  fst r' = fst r /\ self (snd r') = self (snd r).
Proof.
  cbv zeta. destruct (retry_world opened w) as (-> & -> & _).
  pose proof (connect_eq opened w) as H1. cbv zeta in H1.
  destruct opened as [u | [e | e]]; cbn [connect_result] in H1;
    rewrite H1; cbn; repeat split; try discriminate; try reflexivity;
    intros [? ?]; discriminate.
Qed.

Lemma connect_result_matches_state_witness :
  status (self (snd (connect (Returns tt) (initial "COM3" 57600 None))))
  = CONNECTED.
Proof.
  apply (proj1 (proj1 (connect_result_matches_state
                         (initial "COM3" 57600 None) (Returns tt)))).
  reflexivity.
Defined.






(** *** Sequences of operations, one more step at a time *)

Lemma after_app ops1 ops2 w : after (ops1 ++ ops2) w = after ops2 (after ops1 w).
Proof.
  revert w. induction ops1 as [|o ops1 IH]; intros w; [reflexivity|].
  cbn [app]. now rewrite !after_cons, IH.
Qed.

Lemma after_snoc ops o w : after (ops ++ [o]) w = snd (step o (after ops w)).
Proof. now rewrite after_app, after_cons, after_nil. Qed.

Lemma step_snd o w :
  snd (step o w) =
    match o with
    | Connect opened => snd (connect opened w)
    | Disconnect => snd (disconnect w)
    | Retry opened => snd (retry opened w)
    | Send v written => snd (send v written w)
    end.
Proof.
  destruct o as [opened | | opened | v written]; unfold step, bind, ret;
    [destruct (connect opened w) | | destruct (retry opened w)
    | destruct (send v written w)]; reflexivity.
Qed.

Lemma step_trace o w :
  trace (snd (step o w)) = (trace w ++ step_events o (self w))%list.
Proof.
  rewrite step_snd.
  destruct o as [opened | | opened | v written]; unfold step_events.
  - pose proof (connect_world opened w) as H. cbv zeta in H.
    rewrite H. now destruct (connect_result (self w) opened) as [[st msg] ser].
  - now rewrite disconnect_eq.
  - destruct (retry_world opened w) as (_ & _ & added & Hc & Hr).
    rewrite Hr. f_equal. f_equal.
    pose proof (connect_world opened w) as H. cbv zeta in H.
    rewrite H in Hc. clear H.
    destruct (connect_result (self w) opened) as [[st msg] ser].
    cbn [trace] in Hc. now apply app_inv_head in Hc.
  - rewrite send_eq. destruct (is_connected (self w)); cbn [snd trace];
      [reflexivity | now rewrite app_nil_r].
Qed.

Lemma connects_snoc ops o :
  connects (ops ++ [o]) =
    (connects ops + if opens_transport o then 1 else 0)%nat.
Proof.
  unfold connects. rewrite filter_app, length_app. cbn [filter].
  now destruct (opens_transport o).
Qed.

Lemma successes_snoc ops o :
  successes (ops ++ [o]) =
    (successes ops + if opens_successfully o then 1 else 0)%nat.
Proof.
  unfold successes. rewrite filter_app, length_app. cbn [filter].
  now destruct (opens_successfully o).
Qed.

Ltac last_step o w :=
  pose proof (step_self o w) as Hself; cbv zeta in Hself;
  pose proof (step_trace o w) as Htrace;
  destruct o as [[u | [e | e]] | | [u | [e | e]] | v written];
  cbn [connect_result step_events opens_transport opens_successfully is_send]
    in Hself, Htrace |- *;
  rewrite ?Hself, ?Htrace.

Lemma transport_usage_callback ops p b cb :
  _status_callback (self (after ops (initial p b cb))) = cb.
Proof.
  induction ops as [|o ops IH] using rev_ind; [reflexivity|].
  rewrite after_snoc. set (w := after ops (initial p b cb)) in *.
  last_step o w; exact IH.
Qed.

(** X11. Whatever the sequence of operations, the port, the baud rate and
    the callback of the handler stay as given at construction; each
    [connect()] and [retry()], and nothing else, opens the transport, once,
    with that port and baud rate, 8 data bits, no parity, 1 stop bit and a
    timeout of 2; and [close()] is never called more often than opens have
    succeeded, an open handle counting as one close still to come. *)
Theorem transport_usage (ops : list op) (p : string) (b : Z)
    (cb : option callback) :
  let w := after ops (initial p b cb) in
  port (self w) = p /\ baud_rate (self w) = b /\
  _status_callback (self w) = cb /\
  opens (trace w) =
    repeat (mkSerial p b DATA_BITS PARITY_NONE STOP_BITS TIMEOUT true)
      (connects ops) /\
  (closes (trace w) + (if is_connected (self w) then 1 else 0)
   <= successes ops)%nat.
Proof.
  cbv zeta. induction ops as [|o ops IH] using rev_ind.
  - cbn. repeat split. lia.
  - rewrite after_snoc, connects_snoc, successes_snoc.
    set (w := after ops (initial p b cb)) in *.
    destruct IH as (Hp & Hb & Hcb & Hop & Hcl).
    assert (Hfresh : fresh_serial (self w)
                     = mkSerial p b DATA_BITS PARITY_NONE STOP_BITS TIMEOUT true)
      by (unfold fresh_serial; now rewrite Hp, Hb).
    rewrite repeat_app.
    last_step o w; cbn [port baud_rate _status_callback is_connected _serial
                        fresh_serial is_open];
      rewrite ?opens_app, ?closes_app, ?Hfresh, Hop;
      destruct (_status_callback (self w));
      destruct (is_connected (self w));
      cbn [opens closes app repeat]; rewrite ?app_nil_r;
      repeat split; auto; lia.
Qed.

(** X12. The status callback is called by [connect()] and [retry()] only,
    twice each: with no callback registered nothing is ever notified; with
    one registered, the number of notifications is twice the number of
    [connect()] and [retry()] calls, and once there has been one the last
    notification carries the status and error message the handler has
    now. *)
Theorem notifications_follow_connects (ops : list op) (p : string) (b : Z)
    (cb : option callback) :
  let w := after ops (initial p b cb) in
  match cb with
  | None => notifications (trace w) = []
  | Some c =>
      List.length (notifications (trace w)) = (2 * connects ops)%nat /\
      (connects ops <> O ->
       exists earlier,
         notifications (trace w) =
           (earlier ++ [(c, status (self w), error_message (self w))])%list)
  end.
Proof.
  cbv zeta.
  assert (Hcb : forall ops, _status_callback (self (after ops (initial p b cb)))
                            = cb)
    by (intros ops'; apply transport_usage_callback).
  induction ops as [|o ops IH] using rev_ind.
  - destruct cb; [|reflexivity]. split; [reflexivity | now intros H].
  - rewrite after_snoc, connects_snoc. specialize (Hcb ops).
    set (w := after ops (initial p b cb)) in *.
    destruct cb as [c|].
    + destruct IH as (Hlen & Hlast).
      last_step o w; rewrite ?Hcb;
        cbn [status error_message _status _error_message];
        rewrite ?notifications_app; cbn [notifications];
        rewrite ?notifications_app; cbn [notifications];
        rewrite ?app_nil_r, ?length_app; cbn [List.length].
      all: destruct (is_connected (self w));
        cbn [notifications app List.length]; rewrite ?app_nil_r.
      all: split; [lia|].
      all: try (intros _;
                exists (notifications (trace w) ++ [(c, CONNECTING, "")])%list;
                now rewrite <- app_assoc).
      all: intros H; apply Hlast; lia.
    + last_step o w; rewrite ?Hcb;
        rewrite ?notifications_app, IH; cbn [notifications app];
        try reflexivity;
        destruct (is_connected (self w)); reflexivity.
Qed.

Lemma notifications_follow_connects_witness :
  let w := after [Connect (Raises (OtherException "boom")); Disconnect]
             (initial "COM3" 57600 (Some 3%nat)) in
  exists earlier,
    notifications (trace w) =
      (earlier ++ [(3%nat, status (self w), error_message (self w))])%list.
Proof.
  cbv zeta.
  apply (proj2 (notifications_follow_connects
                  [Connect (Raises (OtherException "boom")); Disconnect]
                  "COM3" 57600 (Some 3%nat))).
  discriminate.
Defined.

(** X13. Between operations the status is never Connecting, and it is
    Disconnected exactly as long as neither [connect()] nor [retry()] has
    been called; until then [disconnect()] and [send()] do nothing at all:
    the handler and the trace are as at construction. *)
Theorem status_between_operations (ops : list op) (p : string) (b : Z)
    (cb : option callback) :
  let w := after ops (initial p b cb) in
  status (self w) <> CONNECTING /\
  (status (self w) = DISCONNECTED <-> connects ops = O) /\
  (connects ops = O -> w = initial p b cb).
Proof.
  cbv zeta. induction ops as [|o ops IH] using rev_ind.
  - cbn. repeat split; auto; discriminate.
  - rewrite after_snoc, connects_snoc.
    destruct IH as (Hnc & Hd & Hinit).
    destruct (Nat.eq_dec (connects ops) O) as [Hz | Hnz].
    + rewrite (Hinit Hz), Hz.
      destruct o as [[u | [e | e]] | | [u | [e | e]] | v written];
        destruct cb; cbn; repeat split; auto; try discriminate; try lia.
    + set (w := after ops (initial p b cb)) in *.
      assert (Hst : status (self w) <> DISCONNECTED) by tauto.
      pose proof (step_self o w) as Hself. cbv zeta in Hself.
      destruct o as [[u | [e | e]] | | [u | [e | e]] | v written];
        cbn [connect_result opens_transport] in Hself |- *.
      all: split; [rewrite Hself; cbn; first [discriminate | exact Hnc]|].
      all: split; [|intros H; lia].
      all: split; [rewrite Hself; cbn; first [discriminate | intros H; now elim Hst] | intros H; lia].
Qed.

Lemma status_between_operations_witness :
  after [Send 5 (Returns 1); Disconnect; Send 6 (Raises (OtherException ""))]
    (initial "COM3" 57600 (Some 1%nat))
  = initial "COM3" 57600 (Some 1%nat).
Proof.
  apply (proj2 (proj2 (status_between_operations
           [Send 5 (Returns 1); Disconnect;
            Send 6 (Raises (OtherException ""))]
           "COM3" 57600 (Some 1%nat)))).
  reflexivity.
Defined.

(** X14. Nothing but [send()] writes to the transport: every write of a
    trace is the encoded text of the value of some [send(v)] of the
    sequence, there are no more writes than sends, and nothing is written
    before an open has succeeded. *)
Theorem writes_come_from_sends (ops : list op) (p : string) (b : Z)
    (cb : option callback) :
  let w := after ops (initial p b cb) in
  Forall (fun data => exists v written,
            In (Send v written) ops /\ data = encode_latin1 (str v))
         (writes (trace w)) /\
  (List.length (writes (trace w)) <= List.length (filter is_send ops))%nat /\
  (successes ops = O ->
   writes (trace w) = [] /\ is_connected (self w) = false).
Proof.
  cbv zeta. induction ops as [|o ops IH] using rev_ind.
  - cbn. repeat split; auto.
  - rewrite after_snoc, successes_snoc, filter_app, length_app.
    destruct IH as (Hall & Hlen & Hnone).
    set (w := after ops (initial p b cb)) in *.
    assert (Hall' : Forall (fun data => exists v written,
                      In (Send v written) (ops ++ [o]) /\
                      data = encode_latin1 (str v)) (writes (trace w))).
    { revert Hall. apply Forall_impl. intros d (v & wr & Hin & Hd).
      exists v, wr. split; [apply in_or_app; now left | exact Hd]. }
    last_step o w; cbn [is_connected _serial fresh_serial is_open filter
                        is_send List.length];
      rewrite writes_app;
      destruct (_status_callback (self w));
      destruct (is_connected (self w)) eqn:Ec;
      cbn [writes app List.length]; rewrite ?app_nil_r.
    all: split; [|split; [rewrite ?length_app; cbn [List.length]; lia|]].
    all: try exact Hall'.
    all: try (intros H; try lia;
              first [ split; [apply Hnone; lia | reflexivity]
                    | destruct (Hnone ltac:(lia)) as (_ & Hx);
                      discriminate Hx
                    | apply Hnone; lia ]).
    all: apply Forall_app; split; [exact Hall'|].
    all: constructor; [|constructor].
    all: exists v, written; split; [apply in_or_app; right; now left
                                   | reflexivity].
Qed.

Lemma writes_come_from_sends_witness :
  let w := after [Send 5 (Returns 1); Connect (Raises (SerialException "x"));
                  Send 6 (Returns 1)] (initial "COM3" 57600 None) in
  writes (trace w) = [] /\ is_connected (self w) = false.
Proof.
  cbv zeta.
  apply (proj2 (proj2 (writes_come_from_sends
           [Send 5 (Returns 1); Connect (Raises (SerialException "x"));
            Send 6 (Returns 1)] "COM3" 57600 None))).
  reflexivity.
Defined.

End HandlerMore.

(* ===================================================================== *)
(** ** The window *)
(* ===================================================================== *)

Module GuiFacts.
Import Py Spec Observe Config Handler PyFacts HandlerFacts.
Import ValidatorMore HandlerMore Gui.

(** *** What the handlers of the window leave *)

(** [_update_send_button_state] writes the Send button only. *)
Lemma update_send_button_fields h g :
  let g' := _update_send_button_state h g in
  g' = set_send_button
         (if _is_sending g || negb (_input_valid g)
             || negb (status_eqb (status h) CONNECTED)
          then disabled else normal) g.
Proof.
  cbv zeta. unfold _update_send_button_state.
  now destruct (_is_sending g || negb (_input_valid g)
                || negb (status_eqb (status h) CONNECTED)).
Qed.

Lemma input_var_write_eq text h g :
  input_var_write text h g =
    mkGUI (_is_sending g) (fst (Validator.validate text)) (_is_windows g)
      (status_var g) text (snd (Validator.validate text)) (feedback_var g)
      (if _is_sending g || negb (fst (Validator.validate text))
          || negb (status_eqb (status h) CONNECTED)
       then disabled else normal)
      (retry_button g) (connect_button g).
Proof.
  unfold input_var_write, _on_input_change.
  cbn [input_var set_input_var].
  destruct (Validator.validate text) as [v m].
  rewrite update_send_button_fields. reflexivity.
Qed.

(** The result of a click on Send that goes through. *)
Lemma send_click_eq written a :
  let g := gui a in
  let w := world a in
  _on_send_click written a =
    if _is_sending g || negb (_input_valid g) then a
    else
      let r := match int (input_var g) with
               | Some value => send value written w
               | None => ((false, "Error: Invalid input"), w)
               end in
      mkApp
        (mkGUI false (_input_valid g) (_is_windows g) (status_var g)
           (input_var g) (validation_var g) (snd (fst r))
           (if negb (_input_valid g)
               || negb (status_eqb (status (self (snd r))) CONNECTED)
            then disabled else normal)
           (retry_button g) (connect_button g))
        (snd r).
Proof.
  cbv zeta. unfold _on_send_click.
  destruct (_is_sending (gui a) || negb (_input_valid (gui a)));
    [reflexivity|].
  rewrite !update_send_button_fields.
  cbn [input_var set_feedback_var set_send_button set_is_sending].
  destruct (int (input_var (gui a))) as [value|].
  - destruct (send value written (world a)) as [[success message] w'].
    rewrite update_send_button_fields. reflexivity.
  - rewrite update_send_button_fields. reflexivity.
Qed.

Lemma int_blank s : strip s = "" -> int s = None.
Proof. intros H. unfold int. now rewrite H. Qed.

(** X15. Whatever text is typed and then sent by a click on Send, the
    click writes nothing to the transport or it writes the text [str(n)]
    of an integer [n] between 0 and 100, the one [int] reads from the
    typed text: out-of-range and malformed input never reaches the
    transport through the window. *)
Theorem window_sends_validated_values (text : string) (written : outcome Z)
    (a : App) :
  let a' := act (ClickSend written) (act (Type_ text) a) in
  writes (trace (world a')) = writes (trace (world a)) \/
  exists n, MIN_VALUE <= n <= MAX_VALUE /\ int text = Some n /\
    writes (trace (world a')) =
      (writes (trace (world a)) ++ [encode_latin1 (str n)])%list.
Proof.
  cbv zeta. cbn [act]. rewrite send_click_eq. cbv zeta.
  cbn [gui world]. rewrite input_var_write_eq.
  cbn [_is_sending _input_valid input_var].
  destruct (_is_sending (gui a)); [now left|]. cbn [orb].
  destruct (fst (Validator.validate text)) eqn:Ev; [|now left].
  cbn [negb world snd].
  destruct (validate_accepted text Ev) as [Hblank | (n & Hn & Hr)].
  - rewrite (int_blank text Hblank). now left.
  - rewrite Hn, send_eq.
    destruct (is_connected (self (world a))); [|now left].
    right. exists n. cbn [snd trace]. rewrite writes_app.
    now repeat split.
Qed.

(** X16. A blank input is valid for the validator, with no message, but a
    click on Send then sends nothing: the feedback is "Error: Invalid
    input" and the handler and the transport are left as they were. No
    default value is sent. *)
Theorem window_blank_input_not_sent (text : string) (written : outcome Z)
    (a : App) :
  whitespace_only text = true -> _is_sending (gui a) = false ->
  let a1 := act (Type_ text) a in
  let a2 := act (ClickSend written) a1 in
  _input_valid (gui a1) = true /\ validation_var (gui a1) = "" /\
  feedback_var (gui a2) = "Error: Invalid input" /\
  world a2 = world a.
Proof.
  intros Hws Hs. cbv zeta. cbn [act]. rewrite send_click_eq. cbv zeta.
  cbn [gui world]. rewrite input_var_write_eq.
  cbn [_is_sending _input_valid input_var validation_var].
  rewrite (ValidatorFacts.validate_whitespace text Hws), Hs.
  cbn [fst snd orb negb].
  rewrite (int_blank text (strip_whitespace_only text Hws)).
  now repeat split.
Qed.

Lemma window_blank_input_not_sent_witness :
  let a := main false (Returns tt) in
  feedback_var (gui (act (ClickSend (Returns 0)) (act (Type_ "  ") a)))
  = "Error: Invalid input".
Proof.
  cbv zeta.
  apply (window_blank_input_not_sent "  " (Returns 0)
           (main false (Returns tt)) eq_refl eq_refl).
Defined.

(** *** Retry *)

Lemma skipn_app_length {A : Type} (l added : list A) :
  skipn (List.length l) (l ++ added) = added.
Proof. induction l as [|x l IH]; [reflexivity | exact IH]. Qed.

Lemma retry_fst opened w :
  fst (retry opened w) = match opened with
                         | Returns _ => true
                         | Raises _ => false
                         end.
Proof.
  destruct (retry_world opened w) as (-> & _).
  pose proof (connect_eq opened w) as H. cbv zeta in H.
  destruct opened as [u | [e | e]]; cbn [connect_result] in H; now rewrite H.
Qed.

(** The window [_update_connection_display] leaves. *)
Lemma display_eq h g :
  _update_connection_display h g =
    mkGUI (_is_sending g) (_input_valid g) (_is_windows g) (status_text h)
      (input_var g) (validation_var g) (feedback_var g)
      (if _is_sending g || negb (_input_valid g)
          || negb (status_eqb (status h) CONNECTED)
       then disabled else normal)
      (match status h with
       | CONNECTED | CONNECTING => false
       | ERROR | DISCONNECTED =>
           if _is_windows g then retry_button g else true
       end)
      (match status h with
       | CONNECTING => connect_button g
       | CONNECTED =>
           if _is_windows g then "Disconnect" else connect_button g
       | ERROR | DISCONNECTED =>
           if _is_windows g then "Connect" else connect_button g
       end).
Proof.
  unfold _update_connection_display, status_text.
  rewrite update_send_button_fields.
  destruct g as [sending valid windows sv iv vv fv sb rb cb].
  destruct (status h); destruct windows; reflexivity.
Qed.

Lemma display_mk h s v w sv iv vv fv sb rb cb :
  _update_connection_display h (mkGUI s v w sv iv vv fv sb rb cb) =
    mkGUI s v w (status_text h) iv vv fv
      (if s || negb v || negb (status_eqb (status h) CONNECTED)
       then disabled else normal)
      (match status h with
       | CONNECTED | CONNECTING => false
       | ERROR | DISCONNECTED => if w then rb else true
       end)
      (match status h with
       | CONNECTING => cb
       | CONNECTED => if w then "Disconnect" else cb
       | ERROR | DISCONNECTED => if w then "Connect" else cb
       end).
Proof. now rewrite display_eq. Qed.

(** The window a click on Retry leaves. *)
Lemma retry_click_eq opened a :
  let g := gui a in
  let w' := snd (retry opened (world a)) in
  let connected := status_eqb (status (self w')) CONNECTED in
  _on_retry_click opened a =
    mkApp
      (mkGUI (_is_sending g) (_input_valid g) (_is_windows g)
         (status_text (self w')) (input_var g) (validation_var g)
         (if connected then "Reconnected successfully"
          else "Reconnection failed")
         (if _is_sending g || negb (_input_valid g) || negb connected
          then disabled else normal)
         (negb (_is_windows g) && negb connected)
         (if _is_windows g
          then (if connected then "Disconnect" else "Connect")
          else connect_button g))
      w'.
Proof.
  cbv zeta. destruct a as [g w]. cbn [gui world]. unfold _on_retry_click.
  cbn [gui world].
  pose proof (retry_fst opened w) as Hfst.
  pose proof (step_snd (Retry opened) w) as Hsnd. cbv beta iota in Hsnd.
  pose proof (step_self (Retry opened) w) as Hself. cbv zeta in Hself.
  pose proof (step_trace (Retry opened) w) as Htrace.
  rewrite Hsnd in Hself, Htrace. clear Hsnd.
  destruct (retry opened w) as [success w'].
  cbn [fst snd] in *. subst success.
  unfold run_callbacks. rewrite Htrace, skipn_app_length. clear Htrace.
  unfold step_events, on_status_change.
  destruct g as [sending valid windows sv iv vv fv sb rb cb].
  destruct opened as [u | [e | e]]; cbn [connect_result] in Hself |- *;
    destruct (_status_callback (self w));
    destruct (is_connected (self w));
    cbn [fold_left app]; rewrite Hself;
    repeat (cbv [set_status_var set_retry_button _is_sending _input_valid
                 _is_windows status_var input_var validation_var
                 feedback_var send_button retry_button connect_button];
            rewrite display_mk);
    cbv [set_feedback_var _is_sending _input_valid
         _is_windows status_var input_var validation_var feedback_var
         send_button retry_button connect_button];
    cbn [status _status status_eqb negb andb orb];
    rewrite ?orb_true_r, ?orb_false_r;
    destruct windows; reflexivity.
Qed.

(** X17. After a click on Retry the feedback is "Reconnected
    successfully" exactly when the open succeeded, which is exactly when
    the handler is connected; the status line shows the state of the
    handler; the Retry button is shown again only after a failure off
    Windows; and the Send button is enabled exactly when the open
    succeeded, the input is valid and no send is under way. *)
Theorem retry_click_outcome (opened : outcome unit) (a : App) :
  let a' := act (ClickRetry opened) a in
  let ok := match opened with Returns _ => true | Raises _ => false end in
  world a' = snd (retry opened (world a)) /\
  is_connected (self (world a')) = ok /\
  feedback_var (gui a') = (if ok then "Reconnected successfully"
                           else "Reconnection failed") /\
  status_var (gui a') = status_text (self (world a')) /\
  retry_button (gui a') = negb (_is_windows (gui a)) && negb ok /\
  (send_button (gui a') = normal <->
   ok = true /\ _input_valid (gui a) = true /\ _is_sending (gui a) = false).
Proof.
  cbv zeta. cbn [act]. rewrite retry_click_eq. cbv zeta. cbn [gui world
    feedback_var status_var retry_button send_button].
  pose proof (step_snd (Retry opened) (world a)) as Hsnd.
  cbv beta iota in Hsnd.
  pose proof (step_self (Retry opened) (world a)) as Hself.
  cbv zeta in Hself. rewrite Hsnd in Hself. clear Hsnd.
  destruct opened as [u | [e | e]]; cbn [connect_result] in Hself;
    rewrite Hself; cbn [status _status status_eqb is_connected _serial
                        fresh_serial is_open negb andb orb];
    destruct (_is_sending (gui a)); destruct (_input_valid (gui a));
    cbn [orb negb]; repeat split; try reflexivity; try discriminate;
    try (intros (? & ? & ?); discriminate);
    try (intros [? ?]; discriminate).
Qed.

Lemma retry_click_outcome_witness :
  send_button (gui (act (ClickRetry (Returns tt))
                      (main false (Raises (SerialException "busy")))))
  = normal.
Proof.
  apply (proj2 (proj2 (proj2 (proj2 (proj2 (proj2
           (retry_click_outcome (Returns tt)
              (main false (Raises (SerialException "busy")))))))))).
  repeat split.
Defined.

(** *** A session at the window *)

Lemma session_snoc xs x a : session (xs ++ [x]) a = act x (session xs a).
Proof. unfold session. now rewrite fold_left_app. Qed.

Lemma send_self value written w : self (snd (send value written w)) = self w.
Proof. rewrite send_eq. now destruct (is_connected (self w)). Qed.

Lemma status_eqb_connected h :
  status_eqb (status h) CONNECTED = true <-> status h = CONNECTED.
Proof. destruct (status h); split; try discriminate; reflexivity. Qed.

Lemma main_ok opened : window_ok (main false opened).
Proof.
  unfold window_ok, main. cbv zeta. cbn [negb].
  pose proof (connect_world opened
                (mkWorld (mkSerialHandler (SERIAL_PORT false) BAUD_RATE None
                            DISCONNECTED "" (Some gui_callback)) [])) as H.
  cbv zeta in H. cbn [self trace port baud_rate _status_callback app] in H.
  change (initial (SERIAL_PORT false) BAUD_RATE None) with
    (mkWorld (mkSerialHandler (SERIAL_PORT false) BAUD_RATE None
                DISCONNECTED "" None) []).
  cbn [self trace port baud_rate _serial _status _error_message].
  destruct (connect opened _) as [b w'] eqn:E. cbn [snd] in H. subst w'.
  unfold run_callbacks, Gui.__init__, on_status_change.
  destruct opened as [u | [e | e]]; cbn [connect_result];
    cbn [trace List.length skipn fold_left self gui world];
    repeat (cbv [set_status_var set_retry_button _is_sending _input_valid
                 _is_windows status_var input_var validation_var
                 feedback_var send_button retry_button connect_button];
            rewrite display_mk);
    cbv [_is_sending _input_valid _is_windows status_var input_var
         validation_var feedback_var send_button retry_button
         connect_button];
    cbn [status _status status_eqb is_connected _serial fresh_serial
         is_open negb orb];
    repeat split; try reflexivity; try discriminate;
    intros [? ?]; discriminate.
Qed.

Lemma button_normal (v c : bool) :
  (if negb v || negb c then disabled else normal) = normal <->
  v = true /\ c = true.
Proof.
  destruct v, c; cbn; split; try discriminate; try reflexivity;
    try (intros [? ?]; discriminate); now split.
Qed.

Ltac conjuncts := repeat match goal with |- _ /\ _ => split end.

(** The Send button is enabled exactly when the input is valid and the
    handler connected, given that status Connected means connected. *)
Ltac button_goal Hc :=
  split;
  [ let H := fresh in
    intros H; apply button_normal in H; destruct H as [? H];
    apply status_eqb_connected in H; split; [assumption | now apply Hc]
  | let H := fresh in
    intros [? H]; apply button_normal; split;
    [assumption | apply status_eqb_connected; now apply Hc] ].

Lemma act_ok x a : window_ok a -> window_ok (act x a).
Proof.
  unfold window_ok. cbv zeta.
  intros (Hs & Hw & Hv & Hm & Hsv & Hr & Hb & Hc).
  destruct x as [text | written | opened]; cbn [act].
  - rewrite input_var_write_eq. cbn [gui world _is_sending _is_windows
      _input_valid input_var validation_var status_var retry_button
      send_button].
    rewrite Hs. cbn [orb]. conjuncts; auto. button_goal Hc.
  - rewrite send_click_eq. cbv zeta. rewrite Hs. cbn [orb].
    destruct (_input_valid (gui a)) eqn:Ev; cbn [negb orb];
      [|rewrite Ev; conjuncts; auto].
    assert (Hself : self (snd match int (input_var (gui a)) with
                               | Some value => send value written (world a)
                               | None =>
                                   ((false, "Error: Invalid input"), world a)
                               end) = self (world a)).
    { destruct (int (input_var (gui a))); [apply send_self | reflexivity]. }
    cbn [gui world _is_sending _is_windows _input_valid input_var
         validation_var status_var retry_button send_button negb orb].
    rewrite Hself.
    change (if negb (status_eqb (status (self (world a))) CONNECTED)
            then disabled else normal)
      with (if negb true
               || negb (status_eqb (status (self (world a))) CONNECTED)
            then disabled else normal).
    conjuncts; auto. button_goal Hc.
  - rewrite retry_click_eq. cbv zeta. rewrite Hs, Hw.
    cbn [gui world _is_sending _is_windows _input_valid input_var
         validation_var status_var retry_button send_button orb negb andb].
    pose proof (step_snd (Retry opened) (world a)) as Hsnd.
    cbv beta iota in Hsnd.
    pose proof (step_self (Retry opened) (world a)) as Hself.
    cbv zeta in Hself. rewrite Hsnd in Hself. clear Hsnd.
    assert (Hconn : status (self (snd (retry opened (world a)))) = CONNECTED
                    <-> is_connected (self (snd (retry opened (world a))))
                        = true).
    { destruct opened as [u | [e | e]]; cbn [connect_result] in Hself;
        rewrite Hself; cbn; split; try discriminate; reflexivity. }
    conjuncts; auto. button_goal Hconn.
Qed.

(** X18. Off Windows, from the start of the program and through every
    sequence of typing, clicks on Send and clicks on Retry: no send is
    left under way; the validity flag and the validation message are those
    of [validate] on the text in the entry; the status line shows the
    state of the handler; the Retry button is shown exactly when the
    status is not Connected; the Send button is enabled exactly when the
    input is valid and the handler is connected; and the status is
    Connected exactly when the handler is connected. *)
Theorem window_follows_handler (opened : outcome unit) (xs : list action) :
  let a := session xs (main false opened) in
  let g := gui a in
  let h := self (world a) in
  _is_sending g = false /\
  _input_valid g = fst (Validator.validate (input_var g)) /\
  validation_var g = snd (Validator.validate (input_var g)) /\
  status_var g = status_text h /\
  retry_button g = negb (status_eqb (status h) CONNECTED) /\
  (send_button g = normal <->
   _input_valid g = true /\ is_connected h = true) /\
  (status h = CONNECTED <-> is_connected h = true).
Proof.
  cbv zeta.
  assert (H : window_ok (session xs (main false opened))).
  { induction xs as [|x xs IH] using rev_ind; [apply main_ok|].
    rewrite session_snoc. now apply act_ok. }
  unfold window_ok in H. cbv zeta in H. tauto.
Qed.

Lemma window_follows_handler_witness :
  let a := session [Type_ "abc"; ClickSend (Returns 3); Type_ " 42 "]
             (main false (Returns tt)) in
  send_button (gui a) = normal.
Proof.
  cbv zeta.
  apply (proj2 (proj1 (proj2 (proj2 (proj2 (proj2 (proj2
           (window_follows_handler (Returns tt)
              [Type_ "abc"; ClickSend (Returns 3); Type_ " 42 "])))))))).
  split; reflexivity.
Defined.

End GuiFacts.
